(** * Training Neural Networks in PyTorch: the notebook and its training loop

    The repository is a course notebook.  The definitions come first:

    - [Text], [Notebook]: the notebook document (its code cells, with the
      source lines and the recorded outputs of the checkpoint file), and the
      small text utilities needed to read it (words, sub-strings, numerals,
      printed tensors);
    - [Training]: a shallow embedding of the cell that trains the network,
      written over an interface for the deep-learning library the notebook
      imports;
    - [Numerics]: the arithmetic of two library calls the notebook relies
      on, plain stochastic gradient descent and log-softmax;
    - [Toy]: a small instance of the library interface, to run the
      embedding on;
    - [Updates], [Unpacking], [Calculus], [Document], [MoreToy]: what the
      training cell does to the parameters and what its outcome is by what
      the library calls return, the binding of the loader's elements, the
      losses and gradients of the other cells, and further readings of the
      document.

    The properties follow: [Runs] on the training cell, [Arithmetic] on the
    two library calls, [Recorded] on the document and its recorded run, and
    [MoreRuns], [MoreArithmetic], [MoreRecorded] on the rest. *)

From Stdlib Require Import List String Ascii Bool Arith ZArith QArith Qabs Lia.
From Stdlib Require Import Reals Lra.
Import ListNotations.

(* ================================================================== *)
(** ** Text utilities *)
(* ================================================================== *)

Module Text.

Local Open Scope nat_scope.
Local Open Scope string_scope.

(** The double-quote character, which occurs in one source line. *)
Definition dquote : string := String (ascii_of_nat 34) EmptyString.

Fixpoint is_prefix (p s : string) : bool :=
  match p, s with
  | EmptyString, _ => true
  | String a p', String b s' => Ascii.eqb a b && is_prefix p' s'
  | String _ _, EmptyString => false
  end.

(** [contains p s]: [p] occurs in [s] as a contiguous sub-string. *)
Fixpoint contains (p s : string) : bool :=
  is_prefix p s ||
  match s with
  | EmptyString => false
  | String _ s' => contains p s'
  end.

Fixpoint drop (n : nat) (s : string) : string :=
  match n, s with
  | O, _ => s
  | S n', String _ s' => drop n' s'
  | S _, EmptyString => EmptyString
  end.

Definition is_digit (c : ascii) : bool :=
  let n := nat_of_ascii c in (48 <=? n)%nat && (n <=? 57)%nat.

Definition is_ident_char (c : ascii) : bool :=
  let n := nat_of_ascii c in
  is_digit c
  || ((65 <=? n)%nat && (n <=? 90)%nat)
  || ((97 <=? n)%nat && (n <=? 122)%nat)
  || (n =? 95)%nat.

(** Maximal runs of identifier characters, in order: the words of a line.
    Python keywords can only occur as such words. *)
Fixpoint words_aux (cur : string) (s : string) : list string :=
  match s with
  | EmptyString =>
      match cur with EmptyString => [] | _ => [cur] end
  | String c s' =>
      if is_ident_char c then words_aux (cur ++ String c EmptyString) s'
      else match cur with
           | EmptyString => words_aux EmptyString s'
           | _ => cur :: words_aux EmptyString s'
           end
  end.

Definition words (s : string) : list string := words_aux EmptyString s.

Definition mem (w : string) (l : list string) : bool :=
  existsb (String.eqb w) l.

(** *** Decimal numerals

    [parse_decimal "0.7881349392219393"] is the rational the numeral
    denotes.  Only the form digits '.' digits is read. *)

Fixpoint digits_value (acc : Z) (s : string) : option Z :=
  match s with
  | EmptyString => Some acc
  | String c s' =>
      if is_digit c
      then digits_value (10 * acc + Z.of_nat (nat_of_ascii c - 48))%Z s'
      else None
  end.

Fixpoint split_at_dot (acc : string) (s : string) : option (string * string) :=
  match s with
  | EmptyString => None
  | String c s' =>
      if Ascii.eqb c "."%char then Some (acc, s')
      else split_at_dot (acc ++ String c EmptyString) s'
  end.

Definition parse_decimal (s : string) : option Q :=
  match split_at_dot EmptyString s with
  | None => None
  | Some (ip, fp) =>
      match ip, fp with
      | EmptyString, _ | _, EmptyString => None
      | _, _ =>
          match digits_value 0%Z (ip ++ fp) with
          | None => None
          | Some n => Some (n # Pos.pow 10 (Pos.of_nat (String.length fp)))
          end
      end
  end.

(** *** Numbers as the library prints them

    [parse_number] also reads a sign and a decimal exponent, as in
    [-3.4652e-04]. *)

Fixpoint split_at (d : ascii) (acc : string) (s : string) : string * option string :=
  match s with
  | EmptyString => (acc, None)
  | String c s' =>
      if Ascii.eqb c d then (acc, Some s')
      else split_at d (acc ++ String c EmptyString) s'
  end.

(** A leading sign, and what follows it. *)
Definition parse_signed (s : string) : bool * string :=
  match s with
  | String "-"%char s' => (true, s')
  | String "+"%char s' => (false, s')
  | _ => (false, s)
  end.

Definition parse_nat (s : string) : option nat :=
  match s with
  | EmptyString => None
  | _ => option_map Z.to_nat (digits_value 0%Z s)
  end.

Definition pow10 (neg : bool) (n : nat) : Q :=
  let p := Pos.pow 10 (Pos.of_nat n) in
  match n with
  | O => 1%Q
  | S _ => if neg then (1 # p) else (Zpos p # 1)
  end.

Definition parse_number (s : string) : option Q :=
  let '(m, ex) := split_at "e"%char EmptyString s in
  let '(neg, digits) := parse_signed m in
  match parse_decimal digits with
  | None => None
  | Some q =>
      let q := if neg then Qopp q else q in
      match ex with
      | None => Some q
      | Some e =>
          let '(eneg, ed) := parse_signed e in
          match parse_nat ed with
          | None => None
          | Some n => Some (Qmult q (pow10 eneg n))
          end
      end
  end.

(** *** Printed tensors *)

Definition concat_lines (ls : list string) : string :=
  fold_right append EmptyString ls.

(** The innermost bracketed groups of a text, in order: the rows of a
    printed matrix. *)
Fixpoint bracketed (cur : option string) (s : string) : list string :=
  match s with
  | EmptyString => []
  | String c s' =>
      if Ascii.eqb c "["%char then bracketed (Some EmptyString) s'
      else if Ascii.eqb c "]"%char then
        match cur with
        | Some r => r :: bracketed None s'
        | None => bracketed None s'
        end
      else
        match cur with
        | Some r => bracketed (Some (r ++ String c EmptyString)) s'
        | None => bracketed None s'
        end
  end.

(** The entries of a row: its comma-separated fields without blanks. *)
Fixpoint fields (cur : string) (s : string) : list string :=
  match s with
  | EmptyString => [cur]
  | String c s' =>
      if Ascii.eqb c ","%char then cur :: fields EmptyString s'
      else if Ascii.eqb c " "%char then fields cur s'
      else fields (cur ++ String c EmptyString) s'
  end.

Definition printed_rows (ls : list string) : list (list string) :=
  map (fields EmptyString) (bracketed None (concat_lines ls)).

(** The ellipsis that stands for the entries the library does not print. *)
Definition ellipsis : string := "...".

Definition shown (row : list string) : list string :=
  filter (fun f => negb (String.eqb f ellipsis)) row.


End Text.

(* ================================================================== *)
(** ** The notebook document *)
(* ================================================================== *)

Module Notebook.

Import Text.
Local Open Scope nat_scope.
Local Open Scope string_scope.

(** Outputs of a code cell, after the notebook format (nbformat 4).  A cell
    whose execution raised records an [Error] output.  The base64 payload of
    an image is not reproduced; its MIME keys are. *)
Inductive output : Type :=
| Stream (name : string) (text : list string)
| DisplayData (mime : list string) (text_plain : list string)
| ExecuteResult (text_plain : list string)
| Error (ename evalue : string).

(** A code cell.  Lines are stored without their line terminator. *)
Record code_cell : Type :=
  { execution_count : option nat;
    outputs : list output;
    source : list string }.

(** Markdown cells hold prose only; their text is not reproduced. *)
Inductive cell : Type :=
| Markdown
| Code (c : code_cell).

Definition cell_In1 : code_cell :=
  {| execution_count := Some 1;
     outputs :=
      [];
     source :=
      [ "import torch";
        "from torch import nn";
        "import torch.nn.functional as F";
        "from torchvision import datasets, transforms";
        "";
        "# Define a transform to normalize the data";
        "transform = transforms.Compose([transforms.ToTensor(),";
        "                                transforms.Normalize((0.5, 0.5, 0.5), (0.5, 0.5, 0.5)),";
        "                              ])";
        "# Download and load the training data";
        "trainset = datasets.MNIST('~/.pytorch/MNIST_data/', download=True, train=True, transform=transform)";
        "trainloader = torch.utils.data.DataLoader(trainset, batch_size=64, shuffle=True)" ] |}.

Definition cell_In2 : code_cell :=
  {| execution_count := Some 2;
     outputs :=
      [ Stream "stdout"
        [ "tensor(2.3101, grad_fn=<NllLossBackward>)" ] ];
     source :=
      [ "# Build a feed-forward network";
        "model = nn.Sequential(nn.Linear(784, 128),";
        "                      nn.ReLU(),";
        "                      nn.Linear(128, 64),";
        "                      nn.ReLU(),";
        "                      nn.Linear(64, 10))";
        "";
        "# Define the loss";
        "criterion = nn.CrossEntropyLoss()";
        "";
        "# Get our data";
        "images, labels = next(iter(trainloader))";
        "# Flatten images";
        "images = images.view(images.shape[0], -1)";
        "";
        "# Forward pass, get our logits";
        "logits = model(images)";
        "# Calculate the loss with the logits and the labels";
        "loss = criterion(logits, labels)";
        "";
        "print(loss)" ] |}.

Definition cell_In3 : code_cell :=
  {| execution_count := Some 3;
     outputs :=
      [ Stream "stdout"
        [ "tensor(2.3048, grad_fn=<NllLossBackward>)" ] ];
     source :=
      [ "# Build a feed-forward network";
        "model = nn.Sequential(nn.Linear(784, 128),";
        "                      nn.ReLU(),";
        "                      nn.Linear(128, 64),";
        "                      nn.ReLU(),";
        "                      nn.Linear(64, 10),";
        "                      nn.LogSoftmax(dim=1))";
        "";
        "# Define the loss";
        "criterion = nn.NLLLoss()";
        "";
        "# Get our data";
        "images, labels = next(iter(trainloader))";
        "# Flatten images";
        "images = images.view(images.shape[0], -1)";
        "";
        "# Forward pass, get our log-probabilities";
        "logps = model(images)";
        "# Calculate the loss with the logps and the labels";
        "loss = criterion(logps, labels)";
        "";
        "print(loss)" ] |}.

Definition cell_In4 : code_cell :=
  {| execution_count := Some 4;
     outputs :=
      [ Stream "stdout"
        [ "tensor([[-1.5367,  1.3747],";
          "        [-0.6888, -1.2932]], requires_grad=True)" ] ];
     source :=
      [ "x = torch.randn(2,2, requires_grad=True)";
        "print(x)" ] |}.

Definition cell_In5 : code_cell :=
  {| execution_count := Some 5;
     outputs :=
      [ Stream "stdout"
        [ "tensor([[2.3614, 1.8898],";
          "        [0.4744, 1.6724]], grad_fn=<PowBackward0>)" ] ];
     source :=
      [ "y = x**2";
        "print(y)" ] |}.

Definition cell_In6 : code_cell :=
  {| execution_count := Some 6;
     outputs :=
      [ Stream "stdout"
        [ "<PowBackward0 object at 0x1232ea9b0>" ] ];
     source :=
      [ "## grad_fn shows the function that generated this variable";
        "print(y.grad_fn)" ] |}.

Definition cell_In7 : code_cell :=
  {| execution_count := Some 7;
     outputs :=
      [ Stream "stdout"
        [ "tensor(1.5995, grad_fn=<MeanBackward1>)" ] ];
     source :=
      [ "z = y.mean()";
        "print(z)" ] |}.

Definition cell_In9 : code_cell :=
  {| execution_count := Some 9;
     outputs :=
      [ Stream "stdout"
        [ "None None None" ] ];
     source :=
      [ "print(x.grad,y.grad,z.grad)" ] |}.

Definition cell_In10 : code_cell :=
  {| execution_count := Some 10;
     outputs :=
      [ Stream "stdout"
        [ "tensor([[-0.7683,  0.6873],";
          "        [-0.3444, -0.6466]])";
          "tensor([[-0.7683,  0.6873],";
          "        [-0.3444, -0.6466]], grad_fn=<DivBackward0>)" ] ];
     source :=
      [ "z.backward()";
        "print(x.grad)";
        "print(x/2)" ] |}.

Definition cell_In11 : code_cell :=
  {| execution_count := Some 11;
     outputs :=
      [];
     source :=
      [ "# Build a feed-forward network";
        "model = nn.Sequential(nn.Linear(784, 128),";
        "                      nn.ReLU(),";
        "                      nn.Linear(128, 64),";
        "                      nn.ReLU(),";
        "                      nn.Linear(64, 10),";
        "                      nn.LogSoftmax(dim=1))";
        "";
        "criterion = nn.NLLLoss()";
        "images, labels = next(iter(trainloader))";
        "images = images.view(images.shape[0], -1)";
        "";
        "logits = model(images)";
        "loss = criterion(logits, labels)" ] |}.

Definition cell_In12 : code_cell :=
  {| execution_count := Some 12;
     outputs :=
      [ Stream "stdout"
        [ "Before backward pass: ";
          " None";
          "After backward pass: ";
          " tensor([[-0.0023, -0.0023, -0.0023,  ..., -0.0023, -0.0023, -0.0023],";
          "        [ 0.0000,  0.0000,  0.0000,  ...,  0.0000,  0.0000,  0.0000],";
          "        [ 0.0000,  0.0000,  0.0000,  ...,  0.0000,  0.0000,  0.0000],";
          "        ...,";
          "        [-0.0010, -0.0010, -0.0010,  ..., -0.0010, -0.0010, -0.0010],";
          "        [ 0.0027,  0.0027,  0.0027,  ...,  0.0027,  0.0027,  0.0027],";
          "        [ 0.0003,  0.0003,  0.0003,  ...,  0.0003,  0.0003,  0.0003]])" ] ];
     source :=
      [ "print('Before backward pass: \n', model[0].weight.grad)";
        "";
        "loss.backward()";
        "";
        "print('After backward pass: \n', model[0].weight.grad)" ] |}.

Definition cell_In13 : code_cell :=
  {| execution_count := Some 13;
     outputs :=
      [];
     source :=
      [ "from torch import optim";
        "";
        "# Optimizers require the parameters to optimize and a learning rate";
        "optimizer = optim.SGD(model.parameters(), lr=0.01)" ] |}.

Definition cell_In14 : code_cell :=
  {| execution_count := Some 14;
     outputs :=
      [ Stream "stdout"
        [ "Initial weights -  Parameter containing:";
          "tensor([[ 1.5425e-02,  2.3794e-02,  3.0812e-02,  ..., -3.0052e-02,";
          "         -2.4703e-02, -3.2205e-02],";
          "        [ 1.6061e-02, -3.4652e-04,  3.5134e-02,  ..., -8.1569e-04,";
          "         -1.7934e-02,  1.7322e-02],";
          "        [ 3.4780e-02,  6.0498e-03, -9.3213e-04,  ..., -7.2209e-03,";
          "         -7.5657e-03,  1.3878e-02],";
          "        ...,";
          "        [-2.8525e-02, -3.1066e-02, -2.5048e-02,  ...,  8.8000e-03,";
          "          2.0230e-02,  1.9758e-02],";
          "        [ 2.9522e-02,  4.6072e-03, -2.6944e-02,  ...,  3.7137e-05,";
          "          1.0792e-02, -2.8270e-03],";
          "        [ 9.6052e-03, -3.4105e-02, -1.7511e-02,  ..., -1.5414e-02,";
          "         -4.0071e-03, -1.1965e-02]], requires_grad=True)";
          "Gradient - tensor([[-0.0025, -0.0025, -0.0025,  ..., -0.0025, -0.0025, -0.0025],";
          "        [ 0.0000,  0.0000,  0.0000,  ...,  0.0000,  0.0000,  0.0000],";
          "        [ 0.0000,  0.0000,  0.0000,  ...,  0.0000,  0.0000,  0.0000],";
          "        ...,";
          "        [-0.0002, -0.0002, -0.0002,  ..., -0.0002, -0.0002, -0.0002],";
          "        [ 0.0005,  0.0005,  0.0005,  ...,  0.0005,  0.0005,  0.0005],";
          "        [ 0.0003,  0.0003,  0.0003,  ...,  0.0003,  0.0003,  0.0003]])" ] ];
     source :=
      [ "print('Initial weights - ', model[0].weight)";
        "";
        "images, labels = next(iter(trainloader))";
        "images.resize_(64, 784)";
        "";
        "# Clear the gradients, do this because gradients are accumulated";
        "optimizer.zero_grad()";
        "";
        "# Forward pass, then backward pass, then update weights";
        "output = model(images)";
        "loss = criterion(output, labels)";
        "loss.backward()";
        "print('Gradient -', model[0].weight.grad)" ] |}.

Definition cell_In15 : code_cell :=
  {| execution_count := Some 15;
     outputs :=
      [ Stream "stdout"
        [ "Updated weights -  Parameter containing:";
          "tensor([[ 1.5450e-02,  2.3819e-02,  3.0837e-02,  ..., -3.0027e-02,";
          "         -2.4678e-02, -3.2181e-02],";
          "        [ 1.6061e-02, -3.4652e-04,  3.5134e-02,  ..., -8.1569e-04,";
          "         -1.7934e-02,  1.7322e-02],";
          "        [ 3.4780e-02,  6.0498e-03, -9.3213e-04,  ..., -7.2209e-03,";
          "         -7.5657e-03,  1.3878e-02],";
          "        ...,";
          "        [-2.8522e-02, -3.1063e-02, -2.5046e-02,  ...,  8.8022e-03,";
          "          2.0232e-02,  1.9760e-02],";
          "        [ 2.9516e-02,  4.6019e-03, -2.6949e-02,  ...,  3.1900e-05,";
          "          1.0786e-02, -2.8322e-03],";
          "        [ 9.6023e-03, -3.4108e-02, -1.7514e-02,  ..., -1.5417e-02,";
          "         -4.0101e-03, -1.1968e-02]], requires_grad=True)" ] ];
     source :=
      [ "# Take an update step and few the new weights";
        "optimizer.step()";
        "print('Updated weights - ', model[0].weight)" ] |}.

Definition cell_In16 : code_cell :=
  {| execution_count := Some 16;
     outputs :=
      [ Stream "stdout"
        [ "Training loss: 1.8482103443094917";
          "Training loss: 0.7881349392219393";
          "Training loss: 0.5054461888349386";
          "Training loss: 0.4187001598033824";
          "Training loss: 0.3776651714672285" ] ];
     source :=
      [ "## Your solution here";
        "";
        "model = nn.Sequential(nn.Linear(784, 128),";
        "                      nn.ReLU(),";
        "                      nn.Linear(128, 64),";
        "                      nn.ReLU(),";
        "                      nn.Linear(64, 10),";
        "                      nn.LogSoftmax(dim=1))";
        "";
        "criterion = nn.NLLLoss()";
        "optimizer = optim.SGD(model.parameters(), lr=0.003)";
        "";
        "epochs = 5";
        "for e in range(epochs):";
        "    running_loss = 0";
        "    for images, labels in trainloader:";
        "        # Flatten MNIST images into a 784 long vector";
        "        images = images.view(images.shape[0], -1)";
        "    ";
        "        # Training pass";
        "        optimizer.zero_grad()";
        "        ";
        "        output = model(images)";
        "        loss = criterion(output, labels)";
        "        loss.backward()";
        "        optimizer.step()";
        "        ";
        "        running_loss += loss.item()";
        "    else:";
        ("        print(f" ++ dquote ++ "Training loss: {running_loss/len(trainloader)}" ++ dquote ++ ")") ] |}.

Definition cell_In18 : code_cell :=
  {| execution_count := Some 18;
     outputs :=
      [ DisplayData ["image/png"; "text/plain"]
        [ "<Figure size 432x648 with 2 Axes>" ] ];
     source :=
      [ "%matplotlib inline";
        "import helper";
        "";
        "images, labels = next(iter(trainloader))";
        "";
        "img = images[0].view(1, 784)";
        "# Turn off gradients to speed up this part";
        "with torch.no_grad():";
        "    logps = model(img)";
        "";
        "# Output of the network are log-probabilities, need to take exponential for probabilities";
        "ps = torch.exp(logps)";
        "helper.view_classify(img.view(1, 28, 28), ps)" ] |}.

Definition notebook : list cell :=
  [ Markdown;
    Markdown;
    Markdown;
    Code cell_In1;
    Markdown;
    Code cell_In2;
    Markdown;
    Code cell_In3;
    Markdown;
    Code cell_In4;
    Code cell_In5;
    Markdown;
    Code cell_In6;
    Markdown;
    Code cell_In7;
    Markdown;
    Code cell_In9;
    Markdown;
    Code cell_In10;
    Markdown;
    Markdown;
    Code cell_In11;
    Code cell_In12;
    Markdown;
    Code cell_In13;
    Markdown;
    Code cell_In14;
    Code cell_In15;
    Markdown;
    Code cell_In16;
    Markdown;
    Code cell_In18;
    Markdown ].

Definition code_cells : list code_cell :=
  flat_map (fun c => match c with Markdown => [] | Code cc => [cc] end) notebook.

(** Every source line of every code cell, in document order. *)
Definition code_lines : list string := flat_map source code_cells.

(** *** Reading the document *)

(** The lines a cell wrote to a stream. *)
Definition stream_text (c : code_cell) : list string :=
  flat_map (fun o => match o with Stream _ t => t | _ => [] end) (outputs c).

Definition raised_output (o : output) : bool :=
  match o with Error _ _ => true | _ => false end.

Definition stream_or_display (o : output) : bool :=
  match o with Stream _ _ | DisplayData _ _ => true | _ => false end.

(** Index of the first line that contains [p]. *)
Fixpoint first_line (p : string) (ls : list string) : option nat :=
  match ls with
  | [] => None
  | l :: ls' =>
      if contains p l then Some 0
      else option_map S (first_line p ls')
  end.

Definition lines_with (p : string) (ls : list string) : list string :=
  filter (contains p) ls.

(** The texts [ps] occur in [ls] in this order, each on a later line than
    the one before; other lines may lie between. *)
Fixpoint in_order (ps ls : list string) : bool :=
  match ls with
  | [] => match ps with [] => true | _ :: _ => false end
  | l :: ls' =>
      match ps with
      | [] => true
      | p :: ps' => if contains p l then in_order ps' ls' else in_order ps ls'
      end
  end.

(** A line without its comment.  No string literal of the notebook holds
    the comment character. *)
Definition code_part (l : string) : string :=
  fst (split_at "#"%char EmptyString l).

Definition all_words (ls : list string) : list string := flat_map words ls.

(** The words that directly follow the word [w]. *)
Fixpoint after (w : string) (ws : list string) : list string :=
  match ws with
  | a :: (b :: _) as rest =>
      if String.eqb a w then b :: after w rest else after w rest
  | _ => []
  end.

(** The names the code takes from the module [m], as in [m.name]. *)
Definition names_from (m : string) (ls : list string) : list string :=
  flat_map (fun l => after m (words (code_part l))) ls.

Definition uses_word (ls : list string) (w : string) : bool :=
  mem w (all_words ls).

(** Python's keywords for branching on a condition, for looping until a
    condition, for leaving a loop early and for raising, checking and
    handling exceptions. *)
Definition branching_keywords : list string := ["if"; "elif"; "while"].
Definition exit_keywords : list string := ["break"; "continue"; "return"].
Definition exception_keywords : list string :=
  ["try"; "except"; "finally"; "raise"; "assert"].

(** Keywords by which a notebook would define code of its own. *)
Definition definition_keywords : list string := ["def"; "class"; "lambda"].

(** The layers, the containers and the criteria of the library's [nn]. *)
Definition nn_provided : list string :=
  ["Sequential"; "Linear"; "ReLU"; "LogSoftmax"; "CrossEntropyLoss";
   "NLLLoss"; "functional"].

Definition loop_keywords : list string := ["for"; "while"].

Definition control_keywords : list string :=
  branching_keywords ++ exit_keywords ++ exception_keywords.

(** None of the words [kws] occurs in the lines [ls], comments included. *)
Definition free_of (kws : list string) (ls : list string) : bool :=
  forallb (fun kw => negb (uses_word ls kw)) kws.

(** How many lines hold the text [p]. *)
Definition occurrences (p : string) (ls : list string) : nat :=
  List.length (lines_with p ls).

(** The lines whose code holds one of the words [kws]. *)
Definition statements_with (kws : list string) (ls : list string) : list string :=
  filter (fun l => existsb (fun w => mem w kws) (words (code_part l))) ls.

(** A chain: each element is related to the next. *)
Fixpoint chain {A} (R : A -> A -> Prop) (l : list A) : Prop :=
  match l with
  | a :: (b :: _) as t => R a b /\ chain R t
  | _ => True
  end.

(** *** The cells of interest *)

Definition loading_cell : code_cell := cell_In1.
Definition single_step_cells : list code_cell := [cell_In14; cell_In15].
Definition training_cell : code_cell := cell_In16.
Definition prediction_cell : code_cell := cell_In18.

(** The calls of one training step, as the training cell writes them. *)
Definition step_texts : list string :=
  [ "optimizer.zero_grad()";
    "output = model(images)";
    "loss = criterion(output, labels)";
    "loss.backward()";
    "optimizer.step()" ].

(** The stages of the narrative, each by the call that performs it. *)
Definition stage_texts : list string :=
  [ "torch.utils.data.DataLoader(";
    "nn.Sequential(";
    "criterion(";
    ".backward()";
    "optimizer.step()";
    "helper.view_classify(" ].

Definition loss_prefix : string := "Training loss: ".

(** The number printed on a line [Training loss: <number>]. *)
Definition parse_loss_line (l : string) : option Q :=
  if is_prefix loss_prefix l
  then parse_decimal (drop (String.length loss_prefix) l)
  else None.

Definition recorded_losses : list (option Q) :=
  map parse_loss_line (stream_text training_cell).

Definition strictly_decreasing (l : list Q) : Prop :=
  chain (fun a b => (b < a)%Q) l.

Definition stage_positions : list (option nat) :=
  map (fun p => first_line p code_lines) stage_texts.

(** The lines that take elements from the loader, and the one that asks
    its length. *)
Definition loader_lines : list string :=
  lines_with "trainloader" code_lines.

Definition next_line : string := "images, labels = next(iter(trainloader))".
Definition for_line : string := "    for images, labels in trainloader:".
Definition range_line : string := "for e in range(epochs):".
Definition loader_line : string :=
  "trainloader = torch.utils.data.DataLoader(trainset, batch_size=64, shuffle=True)".
Definition print_line : string :=
  "        print(f" ++ dquote ++ "Training loss: {running_loss/len(trainloader)}"
    ++ dquote ++ ")".

Definition ran_clean (c : code_cell) : bool :=
  forallb stream_or_display (outputs c)
  && negb (existsb raised_output (outputs c))
  && match execution_count c with Some _ => true | None => false end.

(** *** The single-step demonstration (In [14], In [15])

    In [14] prints the first layer's weights and then, after the backward
    pass, their gradient; In [15] prints the weights after the step. *)

Fixpoint before_line (p : string) (ls : list string) : list string :=
  match ls with
  | [] => []
  | l :: ls' => if is_prefix p l then [] else l :: before_line p ls'
  end.

Fixpoint from_line (p : string) (ls : list string) : list string :=
  match ls with
  | [] => []
  | l :: ls' => if is_prefix p l then ls else from_line p ls'
  end.

Definition initial_weights : list (list string) :=
  printed_rows (before_line "Gradient -" (stream_text cell_In14)).

Definition gradient : list (list string) :=
  printed_rows (from_line "Gradient -" (stream_text cell_In14)).

Definition updated_weights : list (list string) :=
  printed_rows (stream_text cell_In15).

Definition zero_row (row : list string) : bool :=
  forallb (String.eqb "0.0000") (shown row).

(** [optim.SGD(model.parameters(), lr=0.01)] in In [13] *)
Definition demo_learning_rate : Q := 1 # 100.

(** Printed values are rounded: weights to five significant digits (at
    most half of [1e-6] for the values shown), gradients to four decimals
    (at most half of [1e-4]).  A printed triple agrees with
    [w' = w - lr * g] when it does so within these roundings. *)
Definition print_tolerance : Q := 3 # 2000000.

Definition agrees (w g w' : string) : bool :=
  match parse_number w, parse_number g, parse_number w' with
  | Some qw, Some qg, Some qw' =>
      Qle_bool (Qabs (qw' - (qw - demo_learning_rate * qg))) print_tolerance
  | _, _, _ => false
  end.

Fixpoint same_row (r1 r2 : list string) : bool :=
  match r1, r2 with
  | [], [] => true
  | a :: r1', b :: r2' => String.eqb a b && same_row r1' r2'
  | _, _ => false
  end.

Fixpoint forallb3 {A} (f : A -> A -> A -> bool) (l1 l2 l3 : list A) : bool :=
  match l1, l2, l3 with
  | [], [], [] => true
  | a :: l1', b :: l2', c :: l3' => f a b c && forallb3 f l1' l2' l3'
  | _, _, _ => false
  end.


End Notebook.

(* ================================================================== *)
(** ** The training code, over an abstract deep-learning library *)
(* ================================================================== *)

Module Training.

(** *** What the notebook imports

    Tensors, the network, the loader and the optimizer are objects of the
    library.  Each call the notebook makes is a function of this interface;
    a call that may raise returns [LibExn + _]. *)

Class Torch : Type :=
  { Images : Type;   (* a batch of images *)
    Labels : Type;   (* a batch of labels *)
    Output : Type;   (* the network's output for a batch, with its graph *)
    Loss : Type;     (* a scalar loss tensor *)
    Params : Type;   (* the parameters of the network and their .grad *)
    Rng : Type;      (* the library's random generator *)
    Float : Type;    (* Python floats *)
    LibExn : Type;   (* what a library call may raise *)

    (** [nn.Sequential(nn.Linear(784, 128), ..., nn.LogSoftmax(dim=1))]:
        freshly initialised parameters. *)
    sequential_init : Rng -> Params * Rng;

    (** Iterating [trainloader] (built with [shuffle=True]) draws a new
        order from the generator; the pass then yields its batches one at a
        time, and fetching a batch may raise.  A batch is a pair. *)
    loader_iter : Rng -> list (LibExn + Images * Labels) * Rng;

    (** [len(trainloader)] *)
    loader_len : nat;

    (** [images.view(images.shape[0], -1)] *)
    view_flat : Images -> LibExn + Images;
    (** [optimizer.zero_grad()] *)
    zero_grad : Params -> LibExn + Params;
    (** [model(images)] *)
    forward : Params -> Images -> LibExn + Output;
    (** [criterion(output, labels)] with [criterion = nn.NLLLoss()] *)
    nll_loss : Output -> Labels -> LibExn + Loss;
    (** [loss.backward()] adds the gradients of the loss to the parameters. *)
    backward : Loss -> Params -> LibExn + Params;
    (** [optimizer.step()] for [optim.SGD(model.parameters(), lr)] *)
    sgd_step : Q -> Params -> LibExn + Params;
    (** [loss.item()] *)
    item : Loss -> Float;

    (** Python arithmetic on [running_loss], and the text an f-string puts
        for a float. *)
    float_zero : Float;
    float_add : Float -> Float -> Float;
    float_div : Float -> nat -> Float;
    repr : Float -> string }.

Section Library.

Context {lib : Torch}.

(** *** Exceptions, calls and the world *)

Inductive exn : Type :=
| ZeroDivisionError
| LibraryError (e : LibExn).

Inductive lib_call : Type :=
| next_ | view_ | zero_grad_ | forward_ | criterion_ | backward_ | step_.

(** What the program did, in order: each library call that returned, each
    line printed, and a call that raised. *)
Inductive event : Type :=
| Next (b : Images * Labels)
| Exhausted
| View (x : Images)
| ZeroGrad
| Forward
| Criterion (y : Labels)
| Backward
| Step
| Item (v : Float)
| Print (line : string)
| Raised (c : lib_call) (e : LibExn).

Record world : Type :=
  { rng : Rng;
    params : Params;
    calls : list event }.

Definition log (ev : event) (w : world) : world :=
  {| rng := rng w; params := params w; calls := calls w ++ [ev] |}.

Definition set_params (p : Params) (w : world) : world :=
  {| rng := rng w; params := p; calls := calls w |}.

Definition set_rng (r : Rng) (w : world) : world :=
  {| rng := r; params := params w; calls := calls w |}.

(** Computations: state passing, with an exception or a value. *)
Definition M (A : Type) : Type := world -> (exn + A) * world.

Definition ret {A} (a : A) : M A := fun w => (inr a, w).

Definition bind {A B} (m : M A) (k : A -> M B) : M B :=
  fun w =>
    match m w with
    | (inl e, w') => (inl e, w')
    | (inr a, w') => k a w'
    end.

Definition raise {A} (e : exn) : M A := fun w => (inl e, w).

Notation "x <- m ;; k" := (bind m (fun x => k))
  (at level 61, m at next level, right associativity).
Notation "m ;;; k" := (bind m (fun _ => k))
  (at level 61, right associativity).

(** The call [c] raised [e]: this is recorded, and [e] is the outcome. *)
Definition fail {A} (c : lib_call) (e : LibExn) : M A :=
  fun w => (inl (LibraryError e), log (Raised c e) w).

(** A step that cannot raise: it is recorded and yields [a]. *)
Definition emit {A} (ev : event) (a : A) : M A :=
  fun w => (inr a, log ev w).

(** A library call with result [r]: its outcome is recorded, and an
    exception it raises becomes the outcome of the computation. *)
Definition call {A} (c : lib_call) (ok : event) (r : LibExn + A) : M A :=
  match r with
  | inl e => fail c e
  | inr a => emit ok a
  end.

(** A library call that updates the parameters in place. *)
Definition call_on_params (c : lib_call) (ok : event)
    (f : Params -> LibExn + Params) : M unit :=
  fun w =>
    match f (params w) with
    | inl e => fail c e w
    | inr p => (inr tt, set_params p (log ok w))
    end.

Definition get_params : M Params := fun w => (inr (params w), w).

Definition print (line : string) : M unit := emit (Print line) tt.

(** [iter(trainloader)]: the batches of one pass, in the order drawn. *)
Definition iter_loader : M (list (LibExn + Images * Labels)) :=
  fun w => let '(bs, r) := loader_iter (rng w) in (inr bs, set_rng r w).

(** [model = nn.Sequential(...)] *)
Definition new_model : M unit :=
  fun w => let '(p, r) := sequential_init (rng w) in
           (inr tt, set_params p (set_rng r w)).

(** *** The training cell (In [16])

<<
  model = nn.Sequential(...)
  criterion = nn.NLLLoss()
  optimizer = optim.SGD(model.parameters(), lr=0.003)

  epochs = 5
  for e in range(epochs):
      running_loss = 0
      for images, labels in trainloader:
          images = images.view(images.shape[0], -1)
          optimizer.zero_grad()
          output = model(images)
          loss = criterion(output, labels)
          loss.backward()
          optimizer.step()
          running_loss += loss.item()
      else:
          print(f"Training loss: {running_loss/len(trainloader)}")
>>

    The criterion and the optimizer hold no state of their own here: the
    optimizer acts on the parameters of the model, which it shares with it,
    so both are calls on the one [params] of the world. *)

(** The body of the inner loop, for one batch. *)
Definition training_pass (lr : Q) (batch : Images * Labels)
    (running_loss : Float) : M Float :=
  let '(images, labels) := batch in
  images <- call view_ (View images) (view_flat images) ;;
  call_on_params zero_grad_ ZeroGrad zero_grad ;;;
  p <- get_params ;;
  output <- call forward_ Forward (forward p images) ;;
  loss <- call criterion_ (Criterion labels) (nll_loss output labels) ;;
  call_on_params backward_ Backward (backward loss) ;;;
  call_on_params step_ Step (sgd_step lr) ;;;
  v <- emit (Item (item loss)) (item loss) ;;
  ret (float_add running_loss v).

(** [for images, labels in trainloader: ...], over the batches of one
    pass.  When the loader is exhausted control falls to the [else]
    clause: the loop has no break. *)
Fixpoint for_batches (lr : Q) (pass : list (LibExn + Images * Labels))
    (running_loss : Float) : M Float :=
  match pass with
  | [] => emit Exhausted running_loss
  | inl e :: _ => fail next_ e
  | inr b :: rest =>
      emit (Next b) tt ;;;
      running_loss <- training_pass lr b running_loss ;;
      for_batches lr rest running_loss
  end.

(** [running_loss/len(trainloader)] *)
Definition py_div (x : Float) (n : nat) : M Float :=
  match n with
  | O => raise ZeroDivisionError
  | S _ => ret (float_div x n)
  end.

(** The body of the outer loop: one epoch. *)
Definition epoch (lr : Q) : M unit :=
  pass <- iter_loader ;;
  running_loss <- for_batches lr pass float_zero ;;
  mean <- py_div running_loss loader_len ;;
  print ("Training loss: " ++ repr mean).

(** [for e in range(n): body]; the body does not use [e]. *)
Fixpoint for_range (n : nat) (body : M unit) : M unit :=
  match n with
  | O => ret tt
  | S n' => body ;;; for_range n' body
  end.

Definition epochs : nat := 5.
Definition learning_rate : Q := 3 # 1000.

(** The whole cell: a fresh network, the criterion, the optimizer, then
    the loops. *)
Definition training_cell : M unit :=
  new_model ;;;
  for_range epochs (epoch learning_rate).

(** *** What a run looks like *)

Definition batch : Type := (Images * Labels)%type.

(** The events of one iteration of the inner loop on batch [b], where
    [v] is what [loss.item()] returned. *)
Definition pass_calls (b : batch) (v : Float) : list event :=
  [ View (fst b); ZeroGrad; Forward; Criterion (snd b); Backward; Step;
    Item v ].

Definition iteration_calls (it : batch * Float) : list event :=
  Next (fst it) :: pass_calls (fst it) (snd it).

(** The five steps of training on a batch. *)
Definition training_steps (b : batch) : list event :=
  [ ZeroGrad; Forward; Criterion (snd b); Backward; Step ].

Definition is_training_step (ev : event) : bool :=
  match ev with
  | ZeroGrad | Forward | Criterion _ | Backward | Step => true
  | _ => false
  end.

Definition is_raise (ev : event) : bool :=
  match ev with Raised _ _ => true | _ => false end.

Definition printed (l : list event) : list string :=
  flat_map (fun ev => match ev with Print s => [s] | _ => [] end) l.

(** What [loss.item()] returned, call after call. *)
Definition items (l : list event) : list Float :=
  flat_map (fun ev => match ev with Item v => [v] | _ => [] end) l.

(** The batches the loop received from the loader. *)
Definition fetched (l : list event) : list batch :=
  flat_map (fun ev => match ev with Next b => [b] | _ => [] end) l.

(** The sum of the per-batch losses, accumulated from zero in the order
    of the batches, over the length of the loader. *)
Definition mean_loss (vs : list Float) : Float :=
  float_div (fold_left float_add vs float_zero) loader_len.

Definition loss_line (vs : list Float) : string :=
  "Training loss: " ++ repr (mean_loss vs).

(** The events of one epoch whose iterations are [its]. *)
Definition epoch_calls (its : list (batch * Float)) : list event :=
  flat_map iteration_calls its
    ++ [Exhausted; Print (loss_line (map snd its))].

(** A pass of the loader that yielded the batches of [its], none raising. *)
Definition yielded (its : list (batch * Float)) : list (LibExn + batch) :=
  map (fun it => inr (fst it)) its.

(** What the loader yields when iterated [n] times in a row from
    generator state [r]. *)
Fixpoint passes (n : nat) (r : Rng) : list (list (LibExn + batch)) :=
  match n with
  | O => []
  | S n' => let '(bs, r') := loader_iter r in bs :: passes n' r'
  end.

(** The events a computation added. *)
Definition added (w w' : world) : list event :=
  skipn (List.length (calls w)) (calls w').

Definition quiet (l : list event) : Prop :=
  Forall (fun ev => is_raise ev = false) l.

(** How the outcome of a computation relates to the events it added: an
    exception of the library is the outcome exactly when the last event
    is that exception being raised, and no earlier call raised; Python's
    own division by zero needs a loader of length zero. *)
Definition outcome_matches {A} (r : exn + A) (new : list event) : Prop :=
  match r with
  | inl (LibraryError e) =>
      exists c pre, new = pre ++ [Raised c e] /\ quiet pre
  | inl ZeroDivisionError => quiet new /\ loader_len = O
  | inr _ => quiet new
  end.

Definition faithful {A} (m : M A) : Prop :=
  forall w r w',
    m w = (r, w') ->
    exists new, calls w' = calls w ++ new /\ outcome_matches r new.

End Library.

End Training.

(* ================================================================== *)
(** ** The arithmetic of two library calls *)
(* ================================================================== *)

(** The notebook relies on what [optimizer.step()] and [nn.LogSoftmax] do to
    numbers.  Both are stated here over the real numbers, after the
    library's documentation; the rounding of machine floats is left out. *)

Module Numerics.

Local Open Scope R_scope.

Fixpoint map2 {A B C} (f : A -> B -> C) (l1 : list A) (l2 : list B) : list C :=
  match l1, l2 with
  | a :: l1', b :: l2' => f a b :: map2 f l1' l2'
  | _, _ => []
  end.

Definition sum (l : list R) : R := fold_right Rplus 0 l.

(** *** Stochastic gradient descent

    [optim.SGD(model.parameters(), lr=0.01)] leaves momentum, dampening and
    weight decay at their default, zero.  Its [step()] then does, for every
    parameter [p] whose gradient is not [None],
    [p.data.add_(-lr, p.grad.data)]. *)

(** A tensor, by its entries in storage order. *)
Definition tensor : Type := list R.

Record parameter : Type :=
  { data : tensor;
    grad : option tensor }.

Definition entry (t : tensor) (i : nat) : R := nth i t 0.

Definition sgd_entry (lr w g : R) : R := w + (- lr) * g.

Definition sgd_parameter (lr : R) (p : parameter) : parameter :=
  match grad p with
  | None => p
  | Some g => {| data := map2 (sgd_entry lr) (data p) g; grad := Some g |}
  end.

Definition sgd_step (lr : R) (ps : list parameter) : list parameter :=
  map (sgd_parameter lr) ps.

(** [lr=0.01] in In [13] *)
Definition demo_lr : R := 1 / 100.

(** *** The network of the training cell

    [nn.Sequential(nn.Linear(784, 128), nn.ReLU(), nn.Linear(128, 64),
    nn.ReLU(), nn.Linear(64, 10), nn.LogSoftmax(dim=1))] applied to a batch,
    one row per image. *)

Inductive layer : Type :=
| Linear (weight : list (list R)) (bias : list R)
| ReLU
| LogSoftmax.

Definition dot (u v : list R) : R := sum (map2 Rmult u v).

(** [log_softmax(x)_i = log (exp(x_i) / sum_j exp(x_j))] *)
Definition log_softmax (x : list R) : list R :=
  let s := sum (map exp x) in
  map (fun xi => ln (exp xi / s)) x.

(** What a layer does to one row; [Linear] computes [x W^T + b], one output
    per row of the weight. *)
Definition apply_row (l : layer) (x : list R) : list R :=
  match l with
  | Linear W b => map2 (fun w bi => dot x w + bi) W b
  | ReLU => map (Rmax 0) x
  | LogSoftmax => log_softmax x
  end.

(** Every layer of the network acts row by row; for [LogSoftmax] this is
    [dim=1]. *)
Definition apply_layer (l : layer) (batch : list (list R)) : list (list R) :=
  map (apply_row l) batch.

Definition sequential (ls : list layer) (batch : list (list R)) : list (list R) :=
  fold_left (fun x l => apply_layer l x) ls batch.

Definition model (W1 : list (list R)) (b1 : list R) (W2 : list (list R))
    (b2 : list R) (W3 : list (list R)) (b3 : list R) : list layer :=
  [Linear W1 b1; ReLU; Linear W2 b2; ReLU; Linear W3 b3; LogSoftmax].

(** [torch.exp], entry by entry. *)
Definition torch_exp (t : list (list R)) : list (list R) := map (map exp) t.

(** A row of probabilities over [n] classes. *)
Definition distribution (n : nat) (row : list R) : Prop :=
  List.length row = n /\ Forall (fun p => 0 < p) row /\ sum row = 1.

End Numerics.

(* ================================================================== *)
(** ** A small library to run the training cell on *)
(* ================================================================== *)

Module Toy.

Import Training.
Local Open Scope Z_scope.
Local Open Scope string_scope.

Definition show (z : Z) : string :=
  if (z =? 0)%Z then "0.0" else if (z <? 0)%Z then "negative" else "positive".

(** Integers stand for tensors; the network is one weight with its
    gradient; the loader yields [pass] on every pass and reports [len];
    the forward pass refuses a negative input. *)
Definition toy (pass : list (string + Z * Z)) (len : nat) : Torch :=
  {| Images := Z; Labels := Z; Output := Z; Loss := Z;
     Params := Z * Z; Rng := nat; Float := Z; LibExn := string;
     sequential_init := fun r => ((0, 0), S r);
     loader_iter := fun r => (pass, S r);
     loader_len := len;
     view_flat := fun x => inr x;
     zero_grad := fun p => inr (fst p, 0);
     forward := fun p x => if (x <? 0)%Z then inl "size mismatch"
                         else inr (fst p * x);
     nll_loss := fun o y => inr (Z.abs (o - y));
     backward := fun l p => inr (fst p, snd p + l);
     sgd_step := fun lr p => inr (fst p - snd p, snd p);
     item := fun l => l;
     float_zero := 0;
     float_add := Z.add;
     float_div := fun x n => x / Z.of_nat n;
     repr := show |}.

Definition good : Torch := toy [inr (1, 2); inr (3, 4)] 2.
Definition bad : Torch := toy [inr (1, 2); inr (-3, 4); inr (5, 6)] 3.

Definition start (lib : Torch) (r : @Rng lib) (p : @Params lib) : @world lib :=
  {| rng := r; params := p; calls := [] |}.

Definition good_start : @world good := start good O (0, 0).
Definition bad_start : @world bad := start bad O (0, 0).

Definition good_end : @world good := snd (@training_cell good good_start).
Definition bad_end : @world bad := snd (@training_cell bad bad_start).

End Toy.

(* ================================================================== *)
(** ** The training cell as a function of its inputs *)
(* ================================================================== *)

Module Updates.

Import Training.

Section Library.

Context {lib : Torch}.

(** What one iteration of the inner loop does to the parameters, when no
    call raises: the calls of [training_pass] without the record of events
    and without [running_loss]. *)
Definition pass_update (lr : Q) (p : Params) (b : batch) : option Params :=
  match view_flat (fst b) with
  | inl _ => None
  | inr images =>
      match zero_grad p with
      | inl _ => None
      | inr p1 =>
          match forward p1 images with
          | inl _ => None
          | inr output =>
              match nll_loss output (snd b) with
              | inl _ => None
              | inr loss =>
                  match backward loss p1 with
                  | inl _ => None
                  | inr p2 =>
                      match sgd_step lr p2 with
                      | inl _ => None
                      | inr p3 => Some p3
                      end
                  end
              end
          end
      end
  end.

(** The iterations on the batches [bs], one after the other. *)
Fixpoint train_on (lr : Q) (p : Params) (bs : list batch) : option Params :=
  match bs with
  | [] => Some p
  | b :: rest =>
      match pass_update lr p b with
      | None => None
      | Some p' => train_on lr p' rest
      end
  end.

(** The generator after the loader was iterated [n] times in a row. *)
Fixpoint after_passes (n : nat) (r : Rng) : Rng :=
  match n with
  | O => r
  | S n' => after_passes n' (snd (loader_iter r))
  end.

(** The same state of the library under another record of events. *)
Definition with_calls (l : list event) (w : world) : world :=
  {| rng := rng w; params := params w; calls := l |}.

(** Computations that only add events: [P] holds of what any run adds. *)
Definition adds {A} (P : list event -> Prop) (m : M A) : Prop :=
  forall w r w',
    m w = (r, w') -> exists new, calls w' = calls w ++ new /\ P new.

(** Nothing was printed. *)
Definition silent (l : list event) : Prop := printed l = [].

(** Every printed line is a training-loss line. *)
Definition loss_lines_only (l : list event) : Prop :=
  Forall (fun s => Text.is_prefix "Training loss: " s = true) (printed l).

(** A computation whose outcome and added events do not depend on the
    events recorded before it. *)
Definition uniform {A} (m : M A) : Prop :=
  forall w r w',
    m w = (r, w') ->
    exists new,
      calls w' = calls w ++ new
      /\ forall l, m (with_calls l w) = (r, with_calls (l ++ new) w').

(** *** What the calls return

    The outcome of one iteration of the inner loop as a function of what
    the library calls return: the calls of [training_pass] in their order,
    each fed with what the one before returned, the first exception ending
    the iteration.  On success: the parameters after the step and the
    number [loss.item()] gave. *)
Definition pass_result (lr : Q) (p : Params) (b : batch)
    : LibExn + (Params * Float) :=
  match view_flat (fst b) with
  | inl e => inl e
  | inr images =>
      match zero_grad p with
      | inl e => inl e
      | inr p1 =>
          match forward p1 images with
          | inl e => inl e
          | inr output =>
              match nll_loss output (snd b) with
              | inl e => inl e
              | inr loss =>
                  match backward loss p1 with
                  | inl e => inl e
                  | inr p2 =>
                      match sgd_step lr p2 with
                      | inl e => inl e
                      | inr p3 => inr (p3, item loss)
                      end
                  end
              end
          end
      end
  end.

(** One pass of the loader: every batch with the number its iteration
    gave, up to the first fetch or call that raises. *)
Fixpoint batches_result (lr : Q) (p : Params) (pass : list (LibExn + batch))
    : LibExn + (Params * list (batch * Float)) :=
  match pass with
  | [] => inr (p, [])
  | inl e :: _ => inl e
  | inr b :: rest =>
      match pass_result lr p b with
      | inl e => inl e
      | inr (p1, v) =>
          match batches_result lr p1 rest with
          | inl e => inl e
          | inr (p2, its) => inr (p2, (b, v) :: its)
          end
      end
  end.

(** [n] epochs in a row from parameters [p] and generator [r]; after the
    batches of an epoch comes the division by [len(trainloader)]. *)
Fixpoint epochs_result (lr : Q) (n : nat) (p : Params) (r : Rng)
    : exn + (Params * list (list (batch * Float))) :=
  match n with
  | O => inr (p, [])
  | S n' =>
      let '(pass, r') := loader_iter r in
      match batches_result lr p pass with
      | inl e => inl (LibraryError e)
      | inr (p1, its) =>
          match loader_len with
          | O => inl ZeroDivisionError
          | S _ =>
              match epochs_result lr n' p1 r' with
              | inl e => inl e
              | inr (p2, eps) => inr (p2, its :: eps)
              end
          end
      end
  end.

(** The calls made by the body of the inner loop, as against the fetches
    of the loop itself and the printing of its [else] clause. *)
Definition is_body_call (ev : event) : bool :=
  match ev with
  | View _ | ZeroGrad | Forward | Criterion _ | Backward | Step | Item _ => true
  | _ => false
  end.

(** Every call of the loop body is one of the five training steps. *)
Definition only_named_steps (l : list event) : Prop :=
  forall ev, In ev l -> is_body_call ev = true -> is_training_step ev = true.

End Library.

End Updates.

(* ================================================================== *)
(** ** Taking elements from the loader *)
(* ================================================================== *)

(** [Training] takes the batches of the loader as pairs.  Here an element
    of the loader is any sequence of objects, and the two statements by
    which the notebook takes elements, [images, labels = next(iter(
    trainloader))] and [for images, labels in trainloader:], bind two names
    to its items as Python does: an element with other than two items
    raises [ValueError] at the binding. *)

Module Unpacking.

Import Training.

Section Elements.

Context {lib : Torch}.

(** The objects a loader yields; the library calls of the training pass
    take the first as a batch of images and the second as a batch of
    labels. *)
Variable Obj : Type.
Variable as_images : Obj -> Images.
Variable as_labels : Obj -> Labels.

Inductive py_exn : Type :=
| StopIteration
| ValueError (expected got : nat)
| Other (e : exn).

(** [images, labels = element] *)
Definition unpack2 (element : list Obj) : py_exn + Obj * Obj :=
  match element with
  | [a; b] => inr (a, b)
  | _ => inl (ValueError 2 (List.length element))
  end.

Definition as_batch (ab : Obj * Obj) : batch :=
  (as_images (fst ab), as_labels (snd ab)).

Definition as_element (ab : Obj * Obj) : list Obj := [fst ab; snd ab].

(** [images, labels = next(iter(trainloader))], on the pass the loader
    starts. *)
Definition next_unpack (pass : list (LibExn + list Obj)) : py_exn + Obj * Obj :=
  match pass with
  | [] => inl StopIteration
  | inl e :: _ => inl (Other (LibraryError e))
  | inr element :: _ => unpack2 element
  end.

(** [for images, labels in trainloader:] with the body of the training
    cell. *)
Fixpoint for_elements (lr : Q) (pass : list (LibExn + list Obj))
    (running_loss : Float) : world -> (py_exn + Float) * world :=
  match pass with
  | [] => fun w => (inr running_loss, log Exhausted w)
  | inl e :: _ =>
      fun w => (inl (Other (LibraryError e)), log (Raised next_ e) w)
  | inr element :: rest =>
      fun w =>
        match unpack2 element with
        | inl e => (inl e, w)
        | inr ab =>
            match training_pass lr (as_batch ab) running_loss
                    (log (Next (as_batch ab)) w) with
            | (inl e, w') => (inl (Other e), w')
            | (inr rl, w') => for_elements lr rest rl w'
            end
        end
  end.

(** The outcome of [Training.for_batches] among the outcomes here. *)
Definition lift {A} (r : (exn + A) * world) : (py_exn + A) * world :=
  match r with
  | (inl e, w) => (inl (Other e), w)
  | (inr a, w) => (inr a, w)
  end.

End Elements.

End Unpacking.

(* ================================================================== *)
(** ** Losses, gradients and means, over the real numbers *)
(* ================================================================== *)

(** What the other cells of the notebook compute, stated like [Numerics]
    over the real numbers after the library's documentation. *)

Module Calculus.

Import Numerics.
Local Open Scope R_scope.

(** The mean of the entries, as [tensor.mean()] and the default reduction
    of the criteria take it. *)
Definition mean (l : list R) : R := sum l / INR (List.length l).

(** *** The criteria of In [2] and In [3]

    The notebook quotes the documentation of [nn.CrossEntropyLoss]: "This
    criterion combines [nn.LogSoftmax()] and [nn.NLLLoss()] in one single
    class."  [nn.NLLLoss()] takes minus the log-probability of the label;
    [nn.CrossEntropyLoss()] takes [-x[class] + log (sum_j exp(x[j]))] of the
    raw scores.  Both average over the batch. *)

Definition nll_row (logp : list R) (c : nat) : R := - nth c logp 0.

Definition nll_loss (logps : list (list R)) (labels : list nat) : R :=
  mean (map2 nll_row logps labels).

Definition cross_entropy_row (x : list R) (c : nat) : R :=
  - nth c x 0 + ln (sum (map exp x)).

Definition cross_entropy_loss (logits : list (list R)) (labels : list nat) : R :=
  mean (map2 cross_entropy_row logits labels).

(** The network of In [2]: the layers of [model] without the final
    [nn.LogSoftmax(dim=1)]. *)
Definition logit_model (W1 : list (list R)) (b1 : list R) (W2 : list (list R))
    (b2 : list R) (W3 : list (list R)) (b3 : list R) : list layer :=
  [Linear W1 b1; ReLU; Linear W2 b2; ReLU; Linear W3 b3].

(** The probabilities of the classes for raw scores [x]:
    [exp(x_i) / sum_j exp(x_j)]. *)
Definition softmax (x : list R) : list R :=
  map (fun xi => exp xi / sum (map exp x)) x.

(** *** Gradients are accumulated

    "Clear the gradients, do this because gradients are accumulated":
    [loss.backward()] adds the gradient of the loss to the stored one (and
    stores it where there is none); [optimizer.zero_grad()] sets a stored
    gradient to zero. *)

Definition accumulate (g : tensor) (p : parameter) : parameter :=
  {| data := data p;
     grad := Some (match grad p with
                   | None => g
                   | Some g0 => map2 Rplus g0 g
                   end) |}.

Definition zero_grad (p : parameter) : parameter :=
  {| data := data p;
     grad := option_map (map (fun _ => 0)) (grad p) |}.

(** One training step on a parameter whose loss has gradient [g], as the
    notebook writes it, and the same step without the call of
    [optimizer.zero_grad()]. *)
Definition step_zeroing (lr : R) (g : tensor) (p : parameter) : parameter :=
  sgd_parameter lr (accumulate g (zero_grad p)).

Definition step_accumulating (lr : R) (g : tensor) (p : parameter) : parameter :=
  sgd_parameter lr (accumulate g p).

(** *** The autograd demonstration (In [4] to In [10])

    [y = x**2], [z = y.mean()], and the [x/2] printed next to [x.grad]. *)

Definition square (x : tensor) : tensor := map (fun v => v * v) x.

Definition z_of (x : tensor) : R := mean (square x).

Definition half (x : tensor) : tensor := map (fun v => v / 2) x.

(** The tensor [x] with [t] at entry [i]. *)
Fixpoint replace (i : nat) (t : R) (x : tensor) : tensor :=
  match x, i with
  | [], _ => []
  | _ :: x', O => t :: x'
  | a :: x', S i' => a :: replace i' t x'
  end.

(** *** The number the training cell prints

    [running_loss] adds up one number per batch, which the criterion has
    averaged over the examples of the batch; the sum is divided by the
    number of batches. *)

Definition epoch_mean (batches : list (list R)) : R :=
  mean (map mean batches).

(** The mean over all examples of the epoch. *)
Definition example_mean (batches : list (list R)) : R :=
  mean (List.concat batches).

End Calculus.

(* ================================================================== *)
(** ** More of the document *)
(* ================================================================== *)

Module Document.

Import Text Notebook.
Local Open Scope nat_scope.
Local Open Scope string_scope.

(** *** The order of execution *)

Definition execution_counts : list (option nat) :=
  map execution_count code_cells.

(** The numbers from 1 to [n] that are not in [l]. *)
Definition missing (n : nat) (l : list nat) : list nat :=
  filter (fun k => negb (existsb (Nat.eqb k) l)) (seq 1 n).

(** *** The networks the cells define *)

Definition defines_model (c : code_cell) : bool :=
  existsb (contains "nn.Sequential(") (source c).

Definition model_cells : list code_cell := filter defines_model code_cells.

(** The sizes [(in, out)] of the layers [Linear(in, out)] among the words of
    a line. *)
Fixpoint linears (ws : list string) : list (nat * nat) :=
  match ws with
  | [] => []
  | l :: rest =>
      match rest with
      | a :: b :: _ =>
          if String.eqb l "Linear" then
            match parse_nat a, parse_nat b with
            | Some x, Some y => (x, y) :: linears rest
            | _, _ => linears rest
            end
          else linears rest
      | _ => []
      end
  end.

Definition cell_linears (c : code_cell) : list (nat * nat) :=
  flat_map (fun l => linears (words (code_part l))) (source c).

(** Each layer takes what the layer before it gives. *)
Definition composable (dims : list (nat * nat)) : Prop :=
  chain (fun a b => snd a = fst b) dims.

Definition ends_in_log_softmax (c : code_cell) : bool :=
  uses_word (map code_part (source c)) "LogSoftmax".

(** The criteria a cell names. *)
Definition criteria_of (c : code_cell) : list string :=
  filter (fun w => mem w ["CrossEntropyLoss"; "NLLLoss"])
    (all_words (map code_part (source c))).

(** The numbers that directly follow the word [w], as the sizes in
    [view(1, 28, 28)]. *)
Fixpoint leading_numbers (ws : list string) : list nat :=
  match ws with
  | [] => []
  | a :: rest =>
      match parse_nat a with
      | Some n => n :: leading_numbers rest
      | None => []
      end
  end.

Fixpoint sizes_after (w : string) (ws : list string) : list (list nat) :=
  match ws with
  | [] => []
  | a :: rest =>
      if String.eqb a w
      then match leading_numbers rest with
           | [] => sizes_after w rest
           | ns => ns :: sizes_after w rest
           end
      else sizes_after w rest
  end.

(** The explicit shapes the code passes to [view] and [resize_]. *)
Definition explicit_shapes : list (list nat) :=
  flat_map (fun l => (sizes_after "view" (words (code_part l))
                      ++ sizes_after "resize_" (words (code_part l)))%list)
    code_lines.

Definition numel (shape : list nat) : nat := fold_right Nat.mul 1 shape.

(** *** The recorded autograd demonstration *)

(** The number in a line [tensor(1.5995, grad_fn=...)]. *)
Definition printed_scalar (l : string) : option Q :=
  if is_prefix "tensor(" l
  then parse_number (fst (split_at ","%char EmptyString (drop 7 l)))
  else None.

Definition x_printed : list (list string) := printed_rows (stream_text cell_In4).
Definition y_printed : list (list string) := printed_rows (stream_text cell_In5).
Definition z_printed : list (option Q) := map printed_scalar (stream_text cell_In7).

(** In [10] prints [x.grad] and then [x/2]. *)
Definition x_grad_printed : list (list string) :=
  firstn 2 (printed_rows (stream_text cell_In10)).
Definition x_half_printed : list (list string) :=
  skipn 2 (printed_rows (stream_text cell_In10)).

Definition numbers (rows : list (list string)) : list (option Q) :=
  map parse_number (List.concat rows).

Fixpoint forallb2 {A B} (f : A -> B -> bool) (l1 : list A) (l2 : list B) : bool :=
  match l1, l2 with
  | [], [] => true
  | a :: l1', b :: l2' => f a b && forallb2 f l1' l2'
  | _, _ => false
  end.

(** Two printed numbers, the second being [f] of the first within [tol]. *)
Definition within (tol : Q) (f : Q -> Q) (a b : option Q) : bool :=
  match a, b with
  | Some qa, Some qb => Qle_bool (Qabs (qb - f qa)) tol
  | _, _ => false
  end.

Definition mean_Q (l : list (option Q)) : option Q :=
  match l with
  | [] => None
  | _ =>
      fold_right (fun a acc => match a, acc with
                               | Some q, Some s => Some (q / inject_Z (Z.of_nat (List.length l)) + s)%Q
                               | _, _ => None
                               end) (Some 0%Q) l
  end.

End Document.

(* ================================================================== *)
(** ** More small libraries *)
(* ================================================================== *)

Module MoreToy.

Import Training.
Local Open Scope Z_scope.
Local Open Scope string_scope.

(** A loader without batches. *)
Definition empty : Torch := Toy.toy [] 0.

(** A loader whose third pass fails on its second batch: as [Toy.toy], but
    the pass depends on the generator. *)
Definition flaky : Torch :=
  {| Images := Z; Labels := Z; Output := Z; Loss := Z;
     Params := Z * Z; Rng := nat; Float := Z; LibExn := string;
     sequential_init := fun r => ((0, 0), S r);
     loader_iter := fun r =>
       (if Nat.eqb r 3 then [inr (1, 2); inl "read error"]
        else [inr (1, 2); inr (3, 4)], S r);
     loader_len := 2;
     view_flat := fun x => inr x;
     zero_grad := fun p => inr (fst p, 0);
     forward := fun p x => inr (fst p * x);
     nll_loss := fun o y => inr (Z.abs (o - y));
     backward := fun l p => inr (fst p, snd p + l);
     sgd_step := fun lr p => inr (fst p - snd p, snd p);
     item := fun l => l;
     float_zero := 0;
     float_add := Z.add;
     float_div := fun x n => x / Z.of_nat n;
     repr := Toy.show |}.

Definition empty_start : @world empty := Toy.start empty O (0, 0).
Definition flaky_start : @world flaky := Toy.start flaky O (0, 0).

(** The world of [Toy.good_start] after some other work: other parameters
    and events on record, the same generator. *)
Definition later (lib : Torch) (w : @world lib) (p : @Params lib)
    (l : list (@event lib)) : @world lib :=
  {| rng := rng w; params := p; calls := l |}.

Definition good_later : @world Toy.good :=
  later Toy.good Toy.good_start (7, 3) [Step; Print "earlier"].

End MoreToy.

(* ================================================================== *)
(** ** Runs of the training cell *)
(* ================================================================== *)

Module Runs.

Import Training Updates.

Section Library.

Context {lib : Torch}.

(** *** Runs that return *)

Ltac run_calls :=
  repeat (match goal with
          | |- context [match ?r with inl _ => _ | inr _ => _ end] =>
              destruct r eqn:?
          end; cbn -[app]; try discriminate).

Lemma training_pass_returns lr b rl w rl' w' :
  training_pass lr b rl w = (inr rl', w') ->
  exists v,
    rl' = float_add rl v
    /\ calls w' = calls w ++ pass_calls b v
    /\ rng w' = rng w.
Proof.
  destruct b as [x y].
  unfold training_pass, bind, call, call_on_params, get_params, ret, emit, fail.
  cbn -[app]. run_calls.
  intros H. injection H as <- <-. eexists. split; [reflexivity|].
  cbn. rewrite <- !app_assoc. split; reflexivity.
Qed.

Lemma for_batches_returns lr pass :
  forall rl w rl' w',
    for_batches lr pass rl w = (inr rl', w') ->
    exists its,
      pass = yielded its
      /\ rl' = fold_left float_add (map snd its) rl
      /\ calls w' = calls w ++ flat_map iteration_calls its ++ [Exhausted]
      /\ rng w' = rng w.
Proof.
  induction pass as [|[e|b] rest IH]; intros rl w rl' w' H.
  - cbn in H. injection H as <- <-. exists []. repeat split.
  - cbn in H. discriminate.
  - cbn -[training_pass] in H. unfold bind in H.
    destruct (training_pass lr b rl (log (Next b) w)) as [[e|rl1] w1] eqn:Hp;
      [discriminate|].
    apply training_pass_returns in Hp. destruct Hp as (v & -> & Hc & Hr).
    apply IH in H. destruct H as (its & -> & -> & Hc' & Hr').
    exists ((b, v) :: its). repeat split.
    + rewrite Hc', Hc. cbn. rewrite <- !app_assoc. reflexivity.
    + rewrite Hr', Hr. reflexivity.
Qed.

Lemma epoch_returns lr w w' :
  epoch lr w = (inr tt, w') ->
  exists its,
    loader_iter (rng w) = (yielded its, rng w')
    /\ loader_len <> O
    /\ calls w' = calls w ++ epoch_calls its.
Proof.
  unfold epoch, bind, iter_loader.
  destruct (loader_iter (rng w)) as [bs r] eqn:Hl.
  destruct (for_batches lr bs float_zero (set_rng r w)) as [[e|rl] w1] eqn:Hb;
    [discriminate|].
  apply for_batches_returns in Hb. destruct Hb as (its & -> & -> & Hc & Hr).
  unfold py_div. destruct loader_len as [|n] eqn:Hn; [discriminate|].
  cbn. intros H. injection H as <-. exists its. cbn in *. repeat split.
  - rewrite Hr. reflexivity.
  - discriminate.
  - rewrite Hc. unfold epoch_calls, loss_line, mean_loss.
    rewrite Hn, <- !app_assoc. reflexivity.
Qed.

Lemma for_range_returns lr n :
  forall w w',
    for_range n (epoch lr) w = (inr tt, w') ->
    exists eps,
      map yielded eps = passes n (rng w)
      /\ calls w' = calls w ++ flat_map epoch_calls eps.
Proof.
  induction n as [|n IH]; intros w w' H.
  - cbn in H. injection H as <-. exists []. split; [reflexivity|].
    cbn. now rewrite app_nil_r.
  - cbn in H. unfold bind in H.
    destruct (epoch lr w) as [[e|[]] w1] eqn:He; [discriminate|].
    apply epoch_returns in He. destruct He as (its & Hl & _ & Hc).
    apply IH in H. destruct H as (eps & Hp & Hc').
    exists (its :: eps). split.
    + cbn. rewrite Hl, Hp. reflexivity.
    + rewrite Hc', Hc. cbn. now rewrite <- app_assoc.
Qed.

Lemma passes_length n : forall r, List.length (passes n r) = n.
Proof.
  induction n as [|n IH]; intros r; cbn; [reflexivity|].
  destruct (loader_iter r). cbn. now rewrite IH.
Qed.

Lemma added_app w w' new :
  calls w' = calls w ++ new -> added w w' = new.
Proof.
  unfold added. intros ->. rewrite skipn_app, Nat.sub_diag, skipn_all.
  reflexivity.
Qed.

(** The shape of every run of the training cell that returns. *)
Lemma training_cell_returns w w' :
  training_cell w = (inr tt, w') ->
  exists eps,
    List.length eps = epochs
    /\ map yielded eps = passes epochs (snd (sequential_init (rng w)))
    /\ loader_len <> O
    /\ added w w' = flat_map epoch_calls eps.
Proof.
  unfold training_cell, bind, new_model.
  destruct (sequential_init (rng w)) as [p r] eqn:Hi. cbn [snd].
  intros H.
  assert (Hlen : loader_len <> O).
  { cbn in H. unfold bind in H.
    destruct (epoch learning_rate _) as [[e|[]] w1] eqn:He; [discriminate|].
    apply epoch_returns in He. now destruct He as (_ & _ & Hn & _). }
  apply for_range_returns in H. destruct H as (eps & Hp & Hc).
  exists eps. cbn [rng calls set_params set_rng] in Hp, Hc.
  repeat split; try assumption.
  - rewrite <- (length_map yielded), Hp. apply passes_length.
  - now apply added_app.
Qed.


(** *** Runs that raise *)

Lemma quiet_app l1 l2 : quiet l1 -> quiet l2 -> quiet (l1 ++ l2).
Proof. unfold quiet. intros H1 H2. now apply Forall_app. Qed.

Lemma outcome_after {A} (r : exn + A) l1 l2 :
  quiet l1 -> outcome_matches r l2 -> outcome_matches r (l1 ++ l2).
Proof.
  intros Hq. destruct r as [[|e]|a]; cbn.
  - intros [Hq2 Hz]. split; [now apply quiet_app | exact Hz].
  - intros (c & pre & -> & Hp). exists c, (l1 ++ pre).
    split; [now rewrite app_assoc | now apply quiet_app].
  - now apply quiet_app.
Qed.

Lemma faithful_ret {A} (a : A) : faithful (ret a).
Proof.
  intros w r w' H. injection H as <- <-. exists [].
  split; [now rewrite app_nil_r | constructor].
Qed.

Lemma faithful_raise_zero {A} :
  loader_len = O -> faithful (raise (A:=A) ZeroDivisionError).
Proof.
  intros Hz w r w' H. injection H as <- <-. exists [].
  split; [now rewrite app_nil_r | split; [constructor | exact Hz]].
Qed.

Lemma faithful_emit {A} ev (a : A) : is_raise ev = false -> faithful (emit ev a).
Proof.
  intros Hev w r w' H. injection H as <- <-. exists [ev].
  split; [reflexivity | now repeat constructor].
Qed.

Lemma faithful_fail {A} c e : faithful (fail (A:=A) c e).
Proof.
  intros w r w' H. injection H as <- <-. exists [Raised c e].
  split; [reflexivity|]. exists c, []. split; [reflexivity | constructor].
Qed.

Lemma faithful_call {A} c ev (r : LibExn + A) :
  is_raise ev = false -> faithful (call c ev r).
Proof.
  intros Hev. destruct r; [apply faithful_fail | now apply faithful_emit].
Qed.

Lemma faithful_call_on_params c ev f :
  is_raise ev = false -> faithful (call_on_params c ev f).
Proof.
  intros Hev w r w'. unfold call_on_params.
  destruct (f (params w)) as [e|p].
  - apply faithful_fail.
  - intros H. injection H as <- <-. exists [ev].
    split; [reflexivity | now repeat constructor].
Qed.

Lemma faithful_bind {A B} (m : M A) (k : A -> M B) :
  faithful m -> (forall a, faithful (k a)) -> faithful (bind m k).
Proof.
  intros Hm Hk w r w'. unfold bind.
  destruct (m w) as [[e|a] w1] eqn:Em; intros H.
  - injection H as <- <-. destruct (Hm _ _ _ Em) as (new & Hc & Ho).
    exists new. split; [assumption|]. destruct e; exact Ho.
  - destruct (Hm _ _ _ Em) as (n1 & Hc1 & Ho1).
    destruct (Hk a _ _ _ H) as (n2 & Hc2 & Ho2).
    exists (n1 ++ n2). split.
    + now rewrite Hc2, Hc1, app_assoc.
    + now apply outcome_after.
Qed.

Lemma faithful_training_pass lr b rl : faithful (training_pass lr b rl).
Proof.
  destruct b as [x y]. unfold training_pass.
  repeat (first
    [ apply faithful_bind; [|intros ?]
    | apply faithful_call; reflexivity
    | apply faithful_call_on_params; reflexivity
    | apply faithful_emit; reflexivity
    | apply faithful_ret ]).
  intros w r w' H. injection H as <- <-. exists [].
  split; [now rewrite app_nil_r | constructor].
Qed.

Lemma faithful_for_batches lr pass : forall rl, faithful (for_batches lr pass rl).
Proof.
  induction pass as [|[e|b] rest IH]; intros rl; cbn [for_batches].
  - now apply faithful_emit.
  - apply faithful_fail.
  - apply faithful_bind; [now apply faithful_emit | intros _].
    apply faithful_bind; [apply faithful_training_pass | intros rl1; apply IH].
Qed.

Lemma faithful_epoch lr : faithful (epoch lr).
Proof.
  unfold epoch. apply faithful_bind.
  - intros w r w'. unfold iter_loader. destruct (loader_iter (rng w)).
    intros H. injection H as <- <-. exists [].
    split; [now rewrite app_nil_r | constructor].
  - intros pass. apply faithful_bind; [apply faithful_for_batches | intros rl].
    apply faithful_bind.
    + unfold py_div. destruct loader_len eqn:Hn;
        [apply faithful_raise_zero; exact Hn | apply faithful_ret].
    + intros mean. now apply faithful_emit.
Qed.

Lemma faithful_for_range n body : faithful body -> faithful (for_range n body).
Proof.
  intros Hb. induction n as [|n IH]; cbn [for_range].
  - apply faithful_ret.
  - apply faithful_bind; [assumption | intros _; assumption].
Qed.

Lemma faithful_training_cell : faithful training_cell.
Proof.
  unfold training_cell. apply faithful_bind.
  - intros w r w'. unfold new_model. destruct (sequential_init (rng w)).
    intros H. injection H as <- <-. exists [].
    split; [now rewrite app_nil_r | constructor].
  - intros _. apply faithful_for_range, faithful_epoch.
Qed.

Lemma quiet_not_raised l c e : quiet l -> ~ In (Raised c e) l.
Proof.
  unfold quiet. rewrite Forall_forall. intros H Hin.
  specialize (H _ Hin). discriminate.
Qed.

(** In a faithful computation, a call that raised decides the outcome. *)
Lemma faithful_uncaught {A} (m : M A) w r w' c e :
  faithful m -> m w = (r, w') ->
  In (Raised c e) (added w w') -> r = inl (LibraryError e).
Proof.
  intros Hm Hrun Hin. destruct (Hm _ _ _ Hrun) as (new & Hc & Ho).
  rewrite (added_app _ _ _ Hc) in Hin.
  destruct r as [[|e']|a]; cbn in Ho.
  - destruct Ho as [Ho _]. now apply quiet_not_raised in Hin.
  - destruct Ho as (c' & pre & -> & Hq). apply in_app_or in Hin.
    destruct Hin as [Hin|[Heq|[]]].
    + now apply quiet_not_raised in Hin.
    + now injection Heq as _ ->.
  - now apply quiet_not_raised in Hin.
Qed.


(** *** Reading the events of a run *)

Lemma filter_flat_map {A B} (f : B -> bool) (g : A -> list B) l :
  filter f (flat_map g l) = flat_map (fun x => filter f (g x)) l.
Proof.
  induction l as [|a l IH]; cbn; [reflexivity|].
  now rewrite filter_app, IH.
Qed.

Lemma flat_map_flat_map {A B C} (f : B -> list C) (g : A -> list B) l :
  flat_map f (flat_map g l) = flat_map (fun x => flat_map f (g x)) l.
Proof.
  induction l as [|a l IH]; cbn; [reflexivity|].
  now rewrite flat_map_app, IH.
Qed.

Lemma flat_map_singleton {A B} (f : A -> B) l :
  flat_map (fun x => [f x]) l = map f l.
Proof. induction l as [|a l IH]; cbn; [reflexivity | now rewrite IH]. Qed.

Lemma steps_of_epoch its :
  filter is_training_step (epoch_calls its)
  = flat_map training_steps (map fst its).
Proof.
  unfold epoch_calls. rewrite filter_app, filter_flat_map. cbn.
  rewrite app_nil_r. induction its as [|it its IH]; cbn; congruence.
Qed.

Lemma steps_of_run eps :
  filter is_training_step (flat_map epoch_calls eps)
  = flat_map training_steps (map fst (List.concat eps)).
Proof.
  rewrite filter_flat_map.
  induction eps as [|its eps IH]; cbn; [reflexivity|].
  now rewrite steps_of_epoch, IH, map_app, flat_map_app.
Qed.

Lemma items_of_epoch its : items (epoch_calls its) = map snd its.
Proof.
  unfold items, epoch_calls. rewrite flat_map_app, flat_map_flat_map. cbn.
  rewrite app_nil_r. apply flat_map_singleton.
Qed.

Lemma fetched_of_epoch its : fetched (epoch_calls its) = map fst its.
Proof.
  unfold fetched, epoch_calls. rewrite flat_map_app, flat_map_flat_map. cbn.
  rewrite app_nil_r. apply flat_map_singleton.
Qed.

Lemma printed_of_epoch its :
  printed (epoch_calls its) = [loss_line (map snd its)].
Proof.
  unfold printed, epoch_calls. rewrite flat_map_app, flat_map_flat_map. cbn.
  replace (flat_map (fun _ : batch * Float => []) its) with (@nil string);
    [reflexivity|].
  induction its; cbn; congruence.
Qed.

Lemma printed_of_run eps :
  printed (flat_map epoch_calls eps)
  = map (fun its => loss_line (map snd its)) eps.
Proof.
  unfold printed. rewrite flat_map_flat_map.
  induction eps as [|its eps IH]; cbn; [reflexivity|].
  fold (printed (epoch_calls its)). now rewrite printed_of_epoch, IH.
Qed.

Lemma yielded_length its : List.length (yielded its) = List.length its.
Proof. apply length_map. Qed.

Lemma passes_in n : forall r bs,
  In bs (passes n r) -> exists r', bs = fst (loader_iter r').
Proof.
  induction n as [|n IH]; intros r bs; cbn; [intros []|].
  destruct (loader_iter r) as [bs0 r0] eqn:E. intros [<-|Hin].
  - exists r. now rewrite E.
  - eapply IH, Hin.
Qed.


(** *** Runs and what the library calls return *)

Lemma training_pass_computes lr b rl w :
  match pass_result lr (params w) b with
  | inl e => exists w', training_pass lr b rl w = (inl (LibraryError e), w')
  | inr (p', v) =>
      exists w',
        training_pass lr b rl w = (inr (float_add rl v), w')
        /\ params w' = p' /\ rng w' = rng w
        /\ calls w' = calls w ++ pass_calls b v
  end.
Proof.
  destruct b as [x y].
  unfold training_pass, pass_result, bind, call, call_on_params, get_params,
    ret, emit, fail.
  cbn -[app].
  destruct (view_flat x) as [e|x']; cbn -[app]; [eexists; reflexivity|].
  destruct (zero_grad (params w)) as [e|p1]; cbn -[app];
    [eexists; reflexivity|].
  destruct (forward p1 x') as [e|out]; cbn -[app]; [eexists; reflexivity|].
  destruct (nll_loss out y) as [e|loss]; cbn -[app]; [eexists; reflexivity|].
  destruct (backward loss p1) as [e|p2]; cbn -[app]; [eexists; reflexivity|].
  destruct (sgd_step lr p2) as [e|p3]; cbn -[app]; [eexists; reflexivity|].
  eexists. repeat split. cbn. now rewrite <- !app_assoc.
Qed.

Lemma for_batches_computes lr pass : forall rl w,
  match batches_result lr (params w) pass with
  | inl e => exists w', for_batches lr pass rl w = (inl (LibraryError e), w')
  | inr (p', its) =>
      exists w',
        for_batches lr pass rl w
        = (inr (fold_left float_add (map snd its) rl), w')
        /\ pass = yielded its
        /\ params w' = p' /\ rng w' = rng w
        /\ calls w' = calls w ++ flat_map iteration_calls its ++ [Exhausted]
  end.
Proof.
  induction pass as [|[e|b] rest IH]; intros rl w; cbn [batches_result].
  - eexists. repeat split.
  - eexists. reflexivity.
  - cbn [for_batches]. unfold bind, emit. cbv beta iota.
    pose proof (training_pass_computes lr b rl (log (Next b) w)) as Hp.
    cbn [params log] in Hp.
    destruct (pass_result lr (params w) b) as [e|[p1 v]].
    + destruct Hp as (w1 & ->). now exists w1.
    + destruct Hp as (w1 & -> & Hp1 & Hr1 & Hc1).
      specialize (IH (float_add rl v) w1). rewrite Hp1 in IH.
      destruct (batches_result lr p1 rest) as [e|[p2 its]].
      * exact IH.
      * destruct IH as (w' & Hf & -> & Hp' & Hr' & Hc').
        exists w'. split; [exact Hf|]. split; [reflexivity|].
        split; [exact Hp'|]. split.
        -- now rewrite Hr', Hr1.
        -- rewrite Hc', Hc1. cbn. now rewrite <- !app_assoc.
Qed.

Lemma epoch_computes lr w :
  match batches_result lr (params w) (fst (loader_iter (rng w))) with
  | inl e => exists w', epoch lr w = (inl (LibraryError e), w')
  | inr (p1, its) =>
      match loader_len with
      | O => exists w', epoch lr w = (inl ZeroDivisionError, w')
      | S _ =>
          exists w',
            epoch lr w = (inr tt, w')
            /\ params w' = p1
            /\ rng w' = snd (loader_iter (rng w))
            /\ fst (loader_iter (rng w)) = yielded its
            /\ calls w' = calls w ++ epoch_calls its
      end
  end.
Proof.
  unfold epoch, bind, iter_loader.
  destruct (loader_iter (rng w)) as [pass r']. cbn [fst snd].
  pose proof (for_batches_computes lr pass float_zero (set_rng r' w)) as Hb.
  cbn [params set_rng] in Hb.
  destruct (batches_result lr (params w) pass) as [e|[p1 its]].
  - destruct Hb as (w1 & ->). now exists w1.
  - destruct Hb as (w1 & -> & -> & Hp1 & Hr1 & Hc1).
    unfold py_div. destruct loader_len as [|k] eqn:Hk.
    + cbn. now exists w1.
    + cbn -[app]. eexists. split; [reflexivity|].
      cbn [params rng calls log set_rng] in *.
      split; [exact Hp1|]. split; [exact Hr1|]. split; [reflexivity|].
      rewrite Hc1. unfold epoch_calls, loss_line, mean_loss.
      rewrite Hk, <- !app_assoc. reflexivity.
Qed.

Lemma for_range_computes lr n : forall w,
  match epochs_result lr n (params w) (rng w) with
  | inl e => exists w', for_range n (epoch lr) w = (inl e, w')
  | inr (p', eps) =>
      exists w',
        for_range n (epoch lr) w = (inr tt, w')
        /\ params w' = p'
        /\ map yielded eps = passes n (rng w)
        /\ calls w' = calls w ++ flat_map epoch_calls eps
        /\ List.length eps = n
  end.
Proof.
  induction n as [|n IH]; intros w; cbn [epochs_result passes for_range].
  - exists w. repeat split. now rewrite app_nil_r.
  - unfold bind. pose proof (epoch_computes lr w) as He.
    destruct (loader_iter (rng w)) as [pass r']. cbn [fst snd] in He.
    destruct (batches_result lr (params w) pass) as [e|[p1 its]].
    + destruct He as (w1 & ->). now exists w1.
    + destruct loader_len as [|k].
      * destruct He as (w1 & ->). now exists w1.
      * destruct He as (w1 & -> & Hp1 & Hr1 & -> & Hc1).
        specialize (IH w1). rewrite Hp1, Hr1 in IH.
        destruct (epochs_result lr n p1 r') as [e|[p2 eps]].
        -- exact IH.
        -- destruct IH as (w' & Hf & Hp' & Hy & Hc' & Hl).
           exists w'. split; [exact Hf|]. split; [exact Hp'|].
           split; [|split].
           ++ cbn [map]. now rewrite Hy.
           ++ rewrite Hc', Hc1. cbn [flat_map]. now rewrite <- app_assoc.
           ++ cbn. now rewrite Hl.
Qed.

(** Every run of the training cell, by what the library calls return. *)
Lemma training_cell_computes w :
  match epochs_result learning_rate epochs
          (fst (sequential_init (rng w))) (snd (sequential_init (rng w))) with
  | inl e => exists w', training_cell w = (inl e, w')
  | inr (p', eps) =>
      exists w',
        training_cell w = (inr tt, w')
        /\ params w' = p'
        /\ map yielded eps = passes epochs (snd (sequential_init (rng w)))
        /\ added w w' = flat_map epoch_calls eps
        /\ List.length eps = epochs
  end.
Proof.
  unfold training_cell, bind, new_model.
  destruct (sequential_init (rng w)) as [p r1]. cbn [fst snd].
  pose proof (for_range_computes learning_rate epochs
                (set_params p (set_rng r1 w))) as H.
  cbn [params rng set_params set_rng] in H.
  destruct (epochs_result learning_rate epochs p r1) as [e|[p' eps]].
  - exact H.
  - destruct H as (w' & Hf & Hp & Hy & Hc & Hl). exists w'.
    repeat split; try assumption. now apply added_app.
Qed.

(** *** The training loop *)

Lemma body_calls_of_epoch its :
  filter is_body_call (epoch_calls its)
  = flat_map (fun it => pass_calls (fst it) (snd it)) its.
Proof.
  unfold epoch_calls. rewrite filter_app, filter_flat_map. cbn.
  rewrite app_nil_r. induction its as [|it its IH]; cbn; congruence.
Qed.

Lemma body_calls_of_run eps :
  filter is_body_call (flat_map epoch_calls eps)
  = flat_map (fun it => pass_calls (fst it) (snd it)) (List.concat eps).
Proof.
  rewrite filter_flat_map.
  induction eps as [|its eps IH]; cbn; [reflexivity|].
  now rewrite body_calls_of_epoch, IH, flat_map_app.
Qed.

(** C2 (amended).  In every run of the training cell that returns, each
    iteration of the inner loop calls, in this order, the flattening
    [view] of the images, then the five steps zero_grad, forward,
    criterion, backward, step, then [loss.item()], which it adds to
    [running_loss]: these seven are all the calls of the loop body, each is
    the library's own call fed with what the call before returned, and the
    parameters the run leaves and the numbers it added are what these calls
    returned, batch after batch and epoch after epoch.  In the text of the
    training cell the five steps occur once each and in this order, as they
    do in the single-step cells, next to the one line that flattens the
    images and the three that hold [running_loss]; the cell holds no
    branching, early exit or exception keyword, and its only control
    statements are the two [for] statements and the [else] of the inner
    one. *)
Theorem training_steps_in_order (w w' : world) :
  training_cell w = (inr tt, w') ->
  exists eps : list (list (batch * Float)),
    epochs_result learning_rate epochs
      (fst (sequential_init (rng w))) (snd (sequential_init (rng w)))
    = inr (params w', eps)
    /\ map yielded eps = passes epochs (snd (sequential_init (rng w)))
    /\ added w w' = flat_map epoch_calls eps
    /\ filter is_body_call (added w w')
       = flat_map (fun it => pass_calls (fst it) (snd it)) (List.concat eps)
    /\ filter is_training_step (added w w')
       = flat_map training_steps (map fst (List.concat eps))
    /\ Notebook.in_order Notebook.step_texts
         (Notebook.source Notebook.training_cell) = true
    /\ map (fun t => Notebook.occurrences t
                       (Notebook.source Notebook.training_cell))
         Notebook.step_texts = [1; 1; 1; 1; 1]%nat
    /\ Notebook.in_order Notebook.step_texts
         (flat_map Notebook.source Notebook.single_step_cells) = true
    /\ Notebook.free_of Notebook.control_keywords
         (Notebook.source Notebook.training_cell) = true
    /\ Notebook.statements_with Notebook.loop_keywords
         (Notebook.source Notebook.training_cell)
       = [Notebook.range_line; Notebook.for_line]
    /\ Notebook.statements_with ["else"%string]
         (Notebook.source Notebook.training_cell)
       = ["    else:"%string]
    /\ Notebook.lines_with ".view("
         (Notebook.source Notebook.training_cell)
       = ["        images = images.view(images.shape[0], -1)"%string]
    /\ Notebook.lines_with "running_loss"
         (Notebook.source Notebook.training_cell)
       = ["    running_loss = 0"%string;
          "        running_loss += loss.item()"%string;
          Notebook.print_line].
Proof.
  intros H. pose proof (training_cell_computes w) as Hc.
  destruct (epochs_result learning_rate epochs _ _) as [e|[p' eps]].
  - destruct Hc as (w0 & Hc). rewrite H in Hc. discriminate.
  - destruct Hc as (w0 & Hc & Hp & Hy & Ha & _). rewrite H in Hc.
    injection Hc as <-. exists eps.
    split; [now rewrite Hp|]. split; [exact Hy|]. split; [exact Ha|].
    split; [rewrite Ha; apply body_calls_of_run|].
    split; [rewrite Ha; apply steps_of_run|].
    repeat split; vm_compute; reflexivity.
Qed.

(** C3.  A run of the training cell that returns consists of exactly five
    epochs; the batches of the k-th epoch are, in order and once each, all
    the batches the loader yields on its k-th pass; five lines are
    printed, as many as the recorded output of the cell holds, and the cell
    sets [epochs = 5]. *)
Theorem five_epochs_of_full_passes (w w' : world) :
  training_cell w = (inr tt, w') ->
  exists eps : list (list (batch * Float)),
    List.length eps = 5%nat
    /\ map yielded eps = passes 5 (snd (sequential_init (rng w)))
    /\ added w w' = flat_map epoch_calls eps
    /\ Forall (fun its => fetched (epoch_calls its) = map fst its) eps
    /\ List.length (printed (added w w')) = 5%nat
    /\ List.length (Notebook.stream_text Notebook.training_cell) = 5%nat
    /\ forallb (Text.is_prefix Notebook.loss_prefix)
         (Notebook.stream_text Notebook.training_cell) = true
    /\ Notebook.lines_with "epochs"
         (Notebook.source Notebook.training_cell)
       = ["epochs = 5"; Notebook.range_line]%string.
Proof.
  intros H. apply training_cell_returns in H.
  destruct H as (eps & Hlen & Hp & _ & Ha). exists eps.
  split; [exact Hlen|]. split; [exact Hp|]. split; [exact Ha|]. split.
  - apply Forall_forall. intros its _. apply fetched_of_epoch.
  - split.
    + rewrite Ha, printed_of_run, length_map. exact Hlen.
    + repeat split; vm_compute; reflexivity.
Qed.

(** C6.  The outcome of a run of the training cell is that of the first
    library call that raises, in the order the cell makes its calls: the
    fetch of a batch, the flattening, zero_grad, forward, criterion,
    backward or step of any iteration of any epoch; the cell returns only
    when none raises.  An exception raised by a library call is the outcome
    of the run, and a run that ends with a library exception ends at the
    call that raised it: nothing is caught and nothing is retried.  The
    only exception that is not the library's is Python's division by zero,
    for a loader of length zero.  The code cells hold no exception keyword
    and no conditional, and their only loops are the two [for] statements
    of the training cell. *)
Theorem library_exceptions_propagate (w w' : world) (r : exn + unit) :
  training_cell w = (r, w') ->
  r = match epochs_result learning_rate epochs
              (fst (sequential_init (rng w))) (snd (sequential_init (rng w)))
      with
      | inl e => inl e
      | inr _ => inr tt
      end
  /\ (forall c e, In (Raised c e) (added w w') -> r = inl (LibraryError e))
  /\ (forall e, r = inl (LibraryError e) ->
        exists c pre, added w w' = pre ++ [Raised c e] /\ quiet pre)
  /\ (r = inl ZeroDivisionError -> loader_len = O)
  /\ Notebook.free_of
       (Notebook.exception_keywords ++ Notebook.branching_keywords)
       Notebook.code_lines = true
  /\ Notebook.statements_with Notebook.loop_keywords Notebook.code_lines
     = [Notebook.range_line; Notebook.for_line].
Proof.
  intros H. split; [|split; [|split; [|split]]].
  - pose proof (training_cell_computes w) as Hc.
    destruct (epochs_result learning_rate epochs _ _) as [e|[p' eps]].
    + destruct Hc as (w0 & Hc). rewrite H in Hc. now injection Hc as -> _.
    + destruct Hc as (w0 & Hc & _). rewrite H in Hc. now injection Hc as -> _.
  - intros c e. eapply faithful_uncaught; [apply faithful_training_cell | exact H].
  - intros e ->. destruct (faithful_training_cell _ _ _ H) as (new & Hc & Ho).
    rewrite (added_app _ _ _ Hc). exact Ho.
  - intros ->. destruct (faithful_training_cell _ _ _ H) as (new & _ & _ & Hz).
    exact Hz.
  - split; vm_compute; reflexivity.
Qed.

(** C8.  In a run of the training cell that returns, one line is printed
    per epoch, when the loader is exhausted, and the number on it is
    the sum of the values [loss.item()] returned in that epoch,
    accumulated from zero in the order of the batches, divided by
    [len(trainloader)], which is not zero.  The values are those of the
    losses the criterion returned for the batches of the epoch, on the
    output of the network as the steps on the batches before had left it.
    When the loader yields [len(trainloader)] batches on every pass, each
    epoch has that many iterations, so the divisor is the number of
    batches. *)
Theorem printed_loss_is_mean_over_batches (w w' : world) :
  training_cell w = (inr tt, w') ->
  exists eps : list (list (batch * Float)),
    List.length eps = epochs
    /\ epochs_result learning_rate epochs
         (fst (sequential_init (rng w))) (snd (sequential_init (rng w)))
       = inr (params w', eps)
    /\ added w w' = flat_map epoch_calls eps
    /\ printed (added w w')
       = map (fun its =>
                ("Training loss: "
                 ++ repr (float_div
                            (fold_left float_add (map snd its) float_zero)
                            loader_len))%string) eps
    /\ Forall (fun its => items (epoch_calls its) = map snd its) eps
    /\ Forall (fun its => List.length (printed (epoch_calls its)) = 1%nat)
         eps
    /\ loader_len <> O
    /\ ((forall r, List.length (fst (loader_iter r)) = loader_len) ->
        Forall (fun its => List.length its = loader_len) eps).
Proof.
  intros H. pose proof (training_cell_computes w) as Hc.
  destruct (epochs_result learning_rate epochs _ _) as [e|[p' eps]].
  { destruct Hc as (w0 & Hc). rewrite H in Hc. discriminate. }
  destruct Hc as (w0 & Hc & Hp0 & Hp & Ha & Hlen). rewrite H in Hc.
  injection Hc as <-. exists eps.
  assert (Hn : loader_len <> O).
  { apply training_cell_returns in H. now destruct H as (_ & _ & _ & Hn & _). }
  split; [exact Hlen|]. split; [now rewrite Hp0|]. split; [exact Ha|].
  split; [|split; [|split; [|split]]].
  - rewrite Ha, printed_of_run. reflexivity.
  - apply Forall_forall. intros its _. apply items_of_epoch.
  - apply Forall_forall. intros its _. now rewrite printed_of_epoch.
  - exact Hn.
  - intros Hl. apply Forall_forall. intros its Hin.
    assert (Hy : In (yielded its) (passes epochs (snd (sequential_init (rng w))))).
    { rewrite <- Hp. now apply in_map. }
    apply passes_in in Hy. destruct Hy as (r' & Hy).
    rewrite <- yielded_length, Hy. apply Hl.
Qed.

End Library.

End Runs.

(* ================================================================== *)
(** ** Gradient descent and log-softmax *)
(* ================================================================== *)

Module Arithmetic.

Import Numerics Calculus.
Local Open Scope R_scope.

Lemma map2_length {A B C} (f : A -> B -> C) l1 : forall l2,
  List.length (map2 f l1 l2) = Nat.min (List.length l1) (List.length l2).
Proof.
  induction l1 as [|a l1 IH]; intros [|b l2]; cbn; try reflexivity.
  now rewrite IH.
Qed.

Lemma map2_nth {A B C} (f : A -> B -> C) da db dc l1 : forall l2 i,
  (i < List.length l1)%nat -> List.length l2 = List.length l1 ->
  nth i (map2 f l1 l2) dc = f (nth i l1 da) (nth i l2 db).
Proof.
  induction l1 as [|a l1 IH]; intros [|b l2] i Hi Hl; cbn in *; try lia.
  destruct i as [|i]; [reflexivity|]. apply IH; lia.
Qed.

Lemma sum_cons a l : sum (a :: l) = a + sum l.
Proof. reflexivity. Qed.

Lemma sum_exp_nonneg x : 0 <= sum (map exp x).
Proof.
  induction x as [|b x IH]; [cbn; lra|].
  cbn [map]. rewrite sum_cons. pose proof (exp_pos b). lra.
Qed.

Lemma sum_exp_pos x : x <> [] -> 0 < sum (map exp x).
Proof.
  destruct x as [|a x]; [congruence|]. intros _.
  cbn [map]. rewrite sum_cons.
  pose proof (exp_pos a). pose proof (sum_exp_nonneg x). lra.
Qed.

Lemma sum_scaled (s : R) x :
  sum (map (fun xi => exp xi / s) x) = sum (map exp x) / s.
Proof.
  induction x as [|a x IH]; [cbn; unfold Rdiv; ring|].
  cbn [map]. rewrite !sum_cons, IH. unfold Rdiv. ring.
Qed.

Lemma exp_log_softmax x :
  x <> [] ->
  map exp (log_softmax x) = map (fun xi => exp xi / sum (map exp x)) x.
Proof.
  intros Hx. unfold log_softmax. rewrite map_map. apply map_ext.
  intros xi. apply exp_ln. apply Rdiv_lt_0_compat.
  - apply exp_pos.
  - now apply sum_exp_pos.
Qed.

Lemma softmax_distribution x :
  x <> [] -> distribution (List.length x) (map exp (log_softmax x)).
Proof.
  intros Hx. pose proof (sum_exp_pos x Hx) as Hs. repeat split.
  - unfold log_softmax. now rewrite !length_map.
  - apply Forall_forall. intros p Hp. apply in_map_iff in Hp.
    destruct Hp as (y & <- & _). apply exp_pos.
  - rewrite exp_log_softmax by assumption. rewrite sum_scaled.
    field. lra.
Qed.

Lemma sequential_rows ls : forall batch,
  sequential ls batch
  = map (fun row => fold_left (fun x l => apply_row l x) ls row) batch.
Proof.
  unfold sequential.
  induction ls as [|l ls IH]; intros batch; cbn.
  - now rewrite map_id.
  - rewrite IH. unfold apply_layer. now rewrite map_map.
Qed.

(** *** Properties *)

(** C9.  With plain SGD at learning rate 0.01, [optimizer.step()] puts in
    every entry of a parameter that has a gradient the old entry minus 0.01
    times the gradient entry, so an entry whose gradient is zero keeps its
    value.  In the recorded outputs the second and third rows of the printed
    gradient are the rows shown as zero, the printed rows of the weights at
    a zero row of the gradient are the same before and after the step, and
    every printed entry agrees with the update within the rounding of the
    printout. *)
Theorem sgd_step_keeps_zero_gradient_entries
    (ps : list parameter) (k : nat) (p : parameter) (g : tensor) (i : nat) :
  nth_error ps k = Some p ->
  grad p = Some g ->
  List.length g = List.length (data p) ->
  (i < List.length (data p))%nat ->
  exists p',
    nth_error (sgd_step demo_lr ps) k = Some p'
    /\ entry (data p') i = entry (data p) i - (1 / 100) * entry g i
    /\ (entry g i = 0 -> entry (data p') i = entry (data p) i)
    /\ map Notebook.zero_row Notebook.gradient
       = [false; true; true; false; false; false]
    /\ Notebook.forallb3
         (fun w g w' => implb (Notebook.zero_row g) (Notebook.same_row w w'))
         Notebook.initial_weights Notebook.gradient Notebook.updated_weights
       = true
    /\ Notebook.forallb3 (Notebook.forallb3 Notebook.agrees)
         (map Text.shown Notebook.initial_weights)
         (map Text.shown Notebook.gradient)
         (map Text.shown Notebook.updated_weights)
       = true.
Proof.
  intros Hk Hg Hl Hi. exists (sgd_parameter demo_lr p).
  assert (He : entry (data (sgd_parameter demo_lr p)) i
               = entry (data p) i - (1 / 100) * entry g i).
  { unfold sgd_parameter, entry. rewrite Hg. cbn [data].
    rewrite (map2_nth _ 0 0) by assumption.
    unfold sgd_entry, demo_lr. field. }
  split; [|split; [|split]].
  - unfold sgd_step. now rewrite nth_error_map, Hk.
  - exact He.
  - intros Hz. rewrite He, Hz. field.
  - repeat split; vm_compute; reflexivity.
Qed.

(** C10.  The last layer of the trained network is [nn.LogSoftmax(dim=1)],
    placed after [nn.Linear(64, 10)]; so for every batch of inputs,
    [torch.exp(model(images))] has one row for every input, this row is the
    softmax of the ten raw scores the layers before compute for the input,
    and it has ten entries, all positive, that sum to one.  The prediction
    cell passes exactly this value to [helper.view_classify]. *)
Theorem prediction_is_a_distribution
    (W1 : list (list R)) (b1 : list R) (W2 : list (list R)) (b2 : list R)
    (W3 : list (list R)) (b3 : list R) (images : list (list R)) :
  List.length W3 = 10%nat ->
  List.length b3 = 10%nat ->
  List.length (torch_exp (sequential (model W1 b1 W2 b2 W3 b3) images))
  = List.length images
  /\ torch_exp (sequential (model W1 b1 W2 b2 W3 b3) images)
     = map softmax (sequential (logit_model W1 b1 W2 b2 W3 b3) images)
  /\ Forall (distribution 10)
       (torch_exp (sequential (model W1 b1 W2 b2 W3 b3) images))
  /\ Notebook.in_order
       ["nn.Linear(64, 10),"; "nn.LogSoftmax(dim=1))"]%string
       (Notebook.source Notebook.training_cell) = true
  /\ Notebook.in_order
       ["logps = model(img)"; "ps = torch.exp(logps)";
        "helper.view_classify(img.view(1, 28, 28), ps)"]%string
       (Notebook.source Notebook.prediction_cell) = true.
Proof.
  intros HW Hb.
  assert (Hz : forall x : list R,
             List.length (apply_row (Linear W3 b3) x) = 10%nat).
  { intros x. cbn [apply_row]. rewrite map2_length, HW, Hb. reflexivity. }
  split; [|split; [|split; [|split; vm_compute; reflexivity]]].
  - unfold torch_exp. now rewrite sequential_rows, !length_map.
  - unfold torch_exp. rewrite !sequential_rows, !map_map. apply map_ext.
    intros row. cbn [model logit_model fold_left].
    change (apply_row LogSoftmax ?z) with (log_softmax z).
    unfold softmax. apply exp_log_softmax.
    intros E. specialize (Hz (apply_row ReLU (apply_row (Linear W2 b2)
                (apply_row ReLU (apply_row (Linear W1 b1) row))))).
    rewrite E in Hz. discriminate.
  - unfold torch_exp. rewrite sequential_rows, map_map.
    apply Forall_forall. intros row Hrow. apply in_map_iff in Hrow.
    destruct Hrow as (x & <- & _). cbn [model fold_left].
    change (apply_row LogSoftmax ?z) with (log_softmax z).
    rewrite <- (Hz (apply_row ReLU (apply_row (Linear W2 b2)
                (apply_row ReLU (apply_row (Linear W1 b1) x))))).
    apply softmax_distribution.
    intros E. specialize (Hz (apply_row ReLU (apply_row (Linear W2 b2)
                (apply_row ReLU (apply_row (Linear W1 b1) x))))).
    rewrite E in Hz. discriminate.
Qed.

End Arithmetic.

(* ================================================================== *)
(** ** The document and its recorded run *)
(* ================================================================== *)

Module Recorded.

Import Text Notebook.
Local Open Scope nat_scope.
Local Open Scope string_scope.

Lemma forallb_Forall {A} (f : A -> bool) (l : list A) :
  forallb f l = true -> Forall (fun x => f x = true) l.
Proof. intros H. apply Forall_forall. now apply forallb_forall. Qed.

(** C1.  The output recorded for the training cell holds five lines
    [Training loss: <number>], and each number is less than the one before
    it.  No line of the notebook's code mentions a seed. *)
Theorem recorded_losses_decrease :
  exists losses : list Q,
    recorded_losses = map Some losses
    /\ List.length losses = 5
    /\ strictly_decreasing losses
    /\ lines_with "seed" code_lines = [].
Proof.
  exists [ 18482103443094917 # 10000000000000000;
           7881349392219393 # 10000000000000000;
           5054461888349386 # 10000000000000000;
           4187001598033824 # 10000000000000000;
           3776651714672285 # 10000000000000000 ]%Q.
  split; [vm_compute; reflexivity|].
  split; [reflexivity|].
  split; [|vm_compute; reflexivity].
  unfold strictly_decreasing, chain, Qlt. cbn. repeat split; lia.
Qed.

(** C4.  The calls that perform the stages of the narrative (loading the
    data, defining the network, evaluating the loss, computing gradients,
    updating the parameters, plotting a prediction) first occur in the code
    in this order.  The loader is built in the first code cell only and the
    plotting helper is called in the last code cell only; the training cell
    repeats the four middle stages in the same order; every name the code
    takes from [nn] is a layer, container or criterion of the library, and
    the code defines no function or class of its own. *)
Theorem narrative_order :
  exists positions : list nat,
    stage_positions = map Some positions
    /\ List.length positions = 6
    /\ chain lt positions
    /\ hd_error code_cells = Some loading_cell
    /\ lines_with "torch.utils.data.DataLoader(" code_lines
       = lines_with "torch.utils.data.DataLoader(" (source loading_cell)
    /\ last code_cells loading_cell = prediction_cell
    /\ lines_with "helper.view_classify(" code_lines
       = lines_with "helper.view_classify(" (source prediction_cell)
    /\ in_order ["nn.Sequential("; "criterion("; ".backward()"; "optimizer.step()"]
         (source training_cell) = true
    /\ forallb (fun n => mem n nn_provided) (names_from "nn" code_lines) = true
    /\ free_of definition_keywords code_lines = true.
Proof.
  exists [11; 13; 30; 64; 104; 148].
  split; [vm_compute; reflexivity|].
  split; [reflexivity|].
  split; [cbn; lia|].
  repeat split; vm_compute; reflexivity.
Qed.

(** C5.  Every code cell of the notebook was executed, and every output
    recorded for a code cell is a stream or a display output; none is an
    error output. *)
Theorem recorded_run_raised_nothing :
  Forall (fun c : code_cell =>
            execution_count c <> None
            /\ Forall (fun o => stream_or_display o = true
                                /\ raised_output o = false) (outputs c))
    code_cells.
Proof.
  assert (H : forallb ran_clean code_cells = true) by (vm_compute; reflexivity).
  apply forallb_Forall in H. eapply Forall_impl; [|exact H].
  intros c Hc. unfold ran_clean in Hc.
  apply andb_prop in Hc. destruct Hc as [Hc Hx].
  apply andb_prop in Hc. destruct Hc as [Hs He]. split.
  - destruct (execution_count c); [discriminate | discriminate Hx].
  - apply forallb_Forall in Hs. apply Forall_forall. intros o Ho.
    rewrite Forall_forall in Hs. specialize (Hs o Ho). split; [exact Hs|].
    destruct o; cbn in *; congruence.
Qed.

Section Elements.

Context {lib : Training.Torch}.
Variable Obj : Type.
Variable as_images : Obj -> Training.Images.
Variable as_labels : Obj -> Training.Labels.

Abbreviation for_elements := (Unpacking.for_elements Obj as_images as_labels).
Abbreviation as_batch := (Unpacking.as_batch Obj as_images as_labels).
Abbreviation as_element := (Unpacking.as_element Obj).
Abbreviation unpack2 := (Unpacking.unpack2 Obj).
Abbreviation next_unpack := (Unpacking.next_unpack Obj).

Lemma unpack2_pair (element : list Obj) (ab : Obj * Obj) :
  unpack2 element = inr ab -> element = as_element ab.
Proof.
  destruct element as [|a [|b [|c rest]]]; cbn; try discriminate.
  intros H. injection H as <-. reflexivity.
Qed.

Lemma unpack2_refuses (element : list Obj) :
  List.length element <> 2 ->
  unpack2 element = inl (Unpacking.ValueError 2 (List.length element)).
Proof.
  destruct element as [|a [|b [|c rest]]]; cbn; try reflexivity.
  intros H. now contradiction H.
Qed.

Lemma for_elements_of_pairs lr (pairs : list (Obj * Obj)) : forall rl w,
  for_elements lr (map (fun ab => inr (as_element ab)) pairs) rl w
  = Unpacking.lift
      (Training.for_batches lr (map (fun ab => inr (as_batch ab)) pairs) rl w).
Proof.
  induction pairs as [|ab pairs IH]; intros rl w; [reflexivity|].
  cbn [map Unpacking.for_elements Training.for_batches].
  unfold Training.bind, Training.emit. cbv beta iota.
  destruct ab as [a b]. cbn [Unpacking.unpack2 Unpacking.as_element fst snd].
  destruct (Training.training_pass lr _ rl _) as [[e|rl1] w1]; [reflexivity|].
  apply IH.
Qed.

Lemma for_elements_returns lr pass : forall rl w rl' w',
  for_elements lr pass rl w = (inr rl', w') ->
  exists pairs : list (Obj * Obj),
    pass = map (fun ab => inr (as_element ab)) pairs
    /\ Training.for_batches lr (map (fun ab => inr (as_batch ab)) pairs) rl w
       = (inr rl', w').
Proof.
  induction pass as [|[e|element] rest IH]; intros rl w rl' w' H.
  - cbn in H. injection H as <- <-. now exists [].
  - cbn in H. discriminate.
  - cbn [Unpacking.for_elements] in H.
    destruct (unpack2 element) as [e|ab] eqn:Hu; [discriminate|].
    apply unpack2_pair in Hu. subst element.
    destruct (Training.training_pass lr (as_batch ab) rl _)
      as [[e|rl1] w1] eqn:Hp; [discriminate|].
    apply IH in H. destruct H as (pairs & -> & Hf).
    exists (ab :: pairs). split; [reflexivity|].
    cbn [map Training.for_batches].
    unfold Training.bind, Training.emit. cbv beta iota.
    now rewrite Hp.
Qed.


End Elements.

End Recorded.

(* ================================================================== *)
(** ** More on the runs of the training cell *)
(* ================================================================== *)

Module MoreRuns.

Import Training Runs Updates.
Local Open Scope nat_scope.

Section Library.

Context {lib : Torch}.

(** *** Events added by a computation *)

Lemma printed_app l1 l2 : printed (l1 ++ l2) = printed l1 ++ printed l2.
Proof. unfold printed. apply flat_map_app. Qed.

Lemma adds_ret {A} (P : list event -> Prop) (a : A) : P [] -> adds P (ret a).
Proof.
  intros HP w r w' H. injection H as <- <-. exists [].
  split; [now rewrite app_nil_r | exact HP].
Qed.

Lemma adds_bind {A B} (P : list event -> Prop) (m : M A) (k : A -> M B) :
  (forall l1 l2, P l1 -> P l2 -> P (l1 ++ l2)) ->
  adds P m -> (forall a, adds P (k a)) -> adds P (bind m k).
Proof.
  intros Happ Hm Hk w r w'. unfold bind.
  destruct (m w) as [[e|a] w1] eqn:Em; intros H.
  - injection H as <- <-. exact (Hm _ _ _ Em).
  - destruct (Hm _ _ _ Em) as (n1 & Hc1 & H1).
    destruct (Hk a _ _ _ H) as (n2 & Hc2 & H2).
    exists (n1 ++ n2). split; [now rewrite Hc2, Hc1, app_assoc | now apply Happ].
Qed.

Lemma adds_one {A} (P : list event -> Prop) (m : M A) ev :
  P [ev] -> (forall w, exists r w0, m w = (r, log ev w0) /\ calls w0 = calls w) ->
  adds P m.
Proof.
  intros HP Hm w r w' H. destruct (Hm w) as (r0 & w0 & E & Hc).
  rewrite E in H. injection H as <- <-. exists [ev]. cbn. now rewrite Hc.
Qed.

Lemma adds_fail {A} (P : list event -> Prop) c e :
  P [Raised c e] -> adds P (fail (A:=A) c e).
Proof.
  intros HP. eapply adds_one; [exact HP|]. intros w.
  now exists (inl (LibraryError e)), w.
Qed.

Lemma adds_emit {A} (P : list event -> Prop) ev (a : A) :
  P [ev] -> adds P (emit ev a).
Proof.
  intros HP. eapply adds_one; [exact HP|]. intros w. now exists (inr a), w.
Qed.

Lemma adds_call {A} (P : list event -> Prop) c ev (r : LibExn + A) :
  P [ev] -> (forall e, P [Raised c e]) -> adds P (call c ev r).
Proof.
  intros Hev Hr. destruct r; [apply adds_fail, Hr | now apply adds_emit].
Qed.

Lemma adds_call_on_params (P : list event -> Prop) c ev f :
  P [ev] -> (forall e, P [Raised c e]) -> adds P (call_on_params c ev f).
Proof.
  intros Hev Hr w r w'. unfold call_on_params.
  destruct (f (params w)) as [e|p].
  - apply adds_fail, Hr.
  - intros H. injection H as <- <-. exists [ev]. split; [reflexivity | exact Hev].
Qed.

Lemma adds_get_params (P : list event -> Prop) : P [] -> adds P get_params.
Proof.
  intros HP w r w' H. injection H as <- <-. exists [].
  split; [now rewrite app_nil_r | exact HP].
Qed.

(** The inner loop prints nothing, whatever its outcome. *)
Lemma silent_app l1 l2 : silent l1 -> silent l2 -> silent (l1 ++ l2).
Proof. unfold silent. intros H1 H2. now rewrite printed_app, H1, H2. Qed.

Lemma silent_training_pass lr b rl : adds silent (training_pass lr b rl).
Proof.
  destruct b as [x y]. unfold training_pass.
  repeat (first
    [ apply adds_bind; [exact silent_app | | intros ?]
    | apply adds_call; [reflexivity | intros ?; reflexivity]
    | apply adds_call_on_params; [reflexivity | intros ?; reflexivity]
    | apply adds_emit; reflexivity
    | apply adds_get_params; reflexivity
    | apply adds_ret; reflexivity ]).
Qed.

Lemma silent_for_batches lr pass : forall rl, adds silent (for_batches lr pass rl).
Proof.
  induction pass as [|[e|b] rest IH]; intros rl; cbn [for_batches].
  - now apply adds_emit.
  - now apply adds_fail.
  - apply adds_bind; [exact silent_app | now apply adds_emit | intros _].
    apply adds_bind; [exact silent_app | apply silent_training_pass | ].
    intros rl1. apply IH.
Qed.

(** *** How many lines a run prints *)

Lemma epoch_prints lr w r w' :
  epoch lr w = (r, w') ->
  exists new,
    calls w' = calls w ++ new
    /\ List.length (printed new) = match r with inr _ => 1 | inl _ => 0 end
    /\ loss_lines_only new
    /\ (loader_len = O -> exists e, r = inl e).
Proof.
  unfold epoch, bind, iter_loader.
  destruct (loader_iter (rng w)) as [bs r0].
  destruct (for_batches lr bs float_zero (set_rng r0 w)) as [[e|rl] w1] eqn:Hb;
    apply silent_for_batches in Hb; destruct Hb as (n1 & Hc & Hs);
    cbn [calls set_rng] in Hc.
  - intros H. injection H as <- <-. exists n1.
    unfold loss_lines_only. rewrite Hs. repeat split; try assumption.
    + constructor.
    + intros _. now exists e.
  - unfold py_div. destruct loader_len as [|n] eqn:Hn.
    + intros H. injection H as <- <-. exists n1.
      unfold loss_lines_only. rewrite Hs. repeat split; try assumption.
      * constructor.
      * intros _. now exists ZeroDivisionError.
    + cbn. intros H. injection H as <- <-. eexists. cbn [calls log].
      split; [rewrite Hc, <- app_assoc; reflexivity|].
      unfold loss_lines_only. rewrite printed_app, Hs. cbn.
      repeat split; [|discriminate].
      constructor; [|constructor]. reflexivity.
Qed.

Lemma loss_lines_only_app l1 l2 :
  loss_lines_only l1 -> loss_lines_only l2 -> loss_lines_only (l1 ++ l2).
Proof.
  unfold loss_lines_only. intros H1 H2. rewrite printed_app.
  now apply Forall_app.
Qed.

Lemma for_range_prints lr n : forall w r w',
  for_range n (epoch lr) w = (r, w') ->
  exists new,
    calls w' = calls w ++ new
    /\ match r with
       | inr _ => List.length (printed new) = n
       | inl _ => (List.length (printed new) < n)%nat
       end
    /\ loss_lines_only new
    /\ (loader_len = O -> silent new /\ (n <> O -> exists e, r = inl e)).
Proof.
  induction n as [|n IH]; intros w r w' H.
  - cbn in H. injection H as <- <-. exists [].
    rewrite app_nil_r. repeat split; try constructor. congruence.
  - cbn [for_range] in H. unfold bind in H.
    destruct (epoch lr w) as [[e|[]] w1] eqn:He;
      apply epoch_prints in He; destruct He as (n1 & Hc1 & Hl1 & Hp1 & Hz1).
    + injection H as <- <-. exists n1. repeat split; try assumption.
      * rewrite Hl1. lia.
      * unfold silent. now apply length_zero_iff_nil.
      * intros _. now exists e.
    + apply IH in H. destruct H as (n2 & Hc2 & Hl2 & Hp2 & Hz2).
      exists (n1 ++ n2). split; [now rewrite Hc2, Hc1, app_assoc|].
      split; [|split].
      * rewrite printed_app, length_app, Hl1. destruct r; lia.
      * now apply loss_lines_only_app.
      * intros Hz. destruct (Hz1 Hz) as (e & He). discriminate He.
Qed.

Lemma training_cell_prints w r w' :
  training_cell w = (r, w') ->
  exists new,
    added w w' = new
    /\ match r with
       | inr _ => List.length (printed new) = epochs
       | inl _ => (List.length (printed new) < epochs)%nat
       end
    /\ loss_lines_only new
    /\ (loader_len = O -> silent new /\ exists e, r = inl e).
Proof.
  unfold training_cell, bind, new_model.
  destruct (sequential_init (rng w)) as [p r1]. intros H.
  apply for_range_prints in H. destruct H as (new & Hc & Hl & Hp & Hz).
  cbn [calls set_params set_rng] in Hc. exists new.
  split; [now apply added_app|]. split; [exact Hl|]. split; [exact Hp|].
  intros Hn. destruct (Hz Hn) as [Hs He]. split; [exact Hs|].
  apply He. discriminate.
Qed.

(** X1.  With a loader of length zero the training cell never returns: the
    first epoch ends in an exception, and no line is printed.  When the
    loader then also yields no batch, the exception is Python's division
    by zero, raised by [running_loss/len(trainloader)] right after the
    loader is exhausted. *)
Theorem empty_loader_never_returns (w w' : world) (r : exn + unit) :
  loader_len = O ->
  training_cell w = (r, w') ->
  (exists e, r = inl e)
  /\ printed (added w w') = []
  /\ (fst (loader_iter (snd (sequential_init (rng w)))) = [] ->
      r = inl ZeroDivisionError /\ added w w' = [Exhausted]).
Proof.
  intros Hz H. destruct (training_cell_prints _ _ _ H) as (new & <- & _ & _ & Hs).
  destruct (Hs Hz) as [Hsil He]. split; [exact He|]. split; [exact Hsil|].
  intros Hempty. revert H.
  unfold training_cell, bind, new_model, epochs.
  destruct (sequential_init (rng w)) as [p r1]. cbn [snd] in Hempty.
  cbn [for_range]. unfold bind, epoch at 1, bind, iter_loader.
  cbn [rng set_params set_rng].
  destruct (loader_iter r1) as [bs r2]. cbn [fst] in Hempty. subst bs.
  cbn [for_batches]. unfold emit, py_div. rewrite Hz. unfold raise.
  intros H. injection H as <- <-. split; [reflexivity|].
  unfold added. cbn [calls log set_params set_rng].
  rewrite skipn_app, Nat.sub_diag, skipn_all. reflexivity.
Qed.

(** X2.  Whatever its outcome, a run of the training cell prints only lines
    that start with [Training loss: ]; it prints five of them when it
    returns and fewer than five when it raises, the line of an epoch being
    printed only once all its batches went through. *)
Theorem printed_lines_count_completed_epochs (w w' : world) (r : exn + unit) :
  training_cell w = (r, w') ->
  match r with
  | inr _ => List.length (printed (added w w')) = 5
  | inl _ => List.length (printed (added w w')) < 5
  end
  /\ Forall (fun s => Text.is_prefix "Training loss: " s = true)
       (printed (added w w')).
Proof.
  intros H. destruct (training_cell_prints _ _ _ H) as (new & <- & Hl & Hp & _).
  split; [exact Hl | exact Hp].
Qed.

(** *** Independence from the events recorded before *)

Lemma uniform_ret {A} (a : A) : uniform (ret a).
Proof.
  intros w r w' H. injection H as <- <-. exists [].
  split; [now rewrite app_nil_r|]. intros l. now rewrite app_nil_r.
Qed.

Lemma uniform_raise {A} e : uniform (raise (A:=A) e).
Proof.
  intros w r w' H. injection H as <- <-. exists [].
  split; [now rewrite app_nil_r|]. intros l. now rewrite app_nil_r.
Qed.

Lemma uniform_fail {A} c e : uniform (fail (A:=A) c e).
Proof.
  intros w r w' H. injection H as <- <-. exists [Raised c e].
  split; reflexivity.
Qed.

Lemma uniform_emit {A} ev (a : A) : uniform (emit ev a).
Proof.
  intros w r w' H. injection H as <- <-. exists [ev]. split; reflexivity.
Qed.

Lemma uniform_call {A} c ev (r : LibExn + A) : uniform (call c ev r).
Proof. destruct r; [apply uniform_fail | apply uniform_emit]. Qed.

Lemma uniform_call_on_params c ev f : uniform (call_on_params c ev f).
Proof.
  intros w r w'. unfold call_on_params.
  destruct (f (params w)) as [e|p] eqn:Ef.
  - intros H. injection H as <- <-. exists [Raised c e].
    split; [reflexivity|]. intros l. cbn [params with_calls]. now rewrite Ef.
  - intros H. injection H as <- <-. exists [ev].
    split; [reflexivity|]. intros l. cbn [params with_calls]. now rewrite Ef.
Qed.

Lemma uniform_get_params : uniform get_params.
Proof.
  intros w r w' H. injection H as <- <-. exists [].
  split; [now rewrite app_nil_r|]. intros l. now rewrite app_nil_r.
Qed.

Lemma uniform_iter_loader : uniform iter_loader.
Proof.
  intros w r w'. unfold iter_loader. cbn [rng with_calls].
  destruct (loader_iter (rng w)) as [bs r0] eqn:E.
  intros H. injection H as <- <-. exists [].
  split; [now rewrite app_nil_r|]. intros l. now rewrite app_nil_r.
Qed.

Lemma uniform_bind {A B} (m : M A) (k : A -> M B) :
  uniform m -> (forall a, uniform (k a)) -> uniform (bind m k).
Proof.
  intros Hm Hk w r w'. unfold bind.
  destruct (m w) as [[e|a] w1] eqn:Em; intros H.
  - injection H as <- <-. destruct (Hm _ _ _ Em) as (new & Hc & Hl).
    exists new. split; [exact Hc|]. intros l. now rewrite Hl.
  - destruct (Hm _ _ _ Em) as (n1 & Hc1 & Hl1).
    destruct (Hk a _ _ _ H) as (n2 & Hc2 & Hl2).
    exists (n1 ++ n2). split; [now rewrite Hc2, Hc1, app_assoc|].
    intros l. rewrite Hl1, Hl2, app_assoc. reflexivity.
Qed.

Lemma uniform_training_pass lr b rl : uniform (training_pass lr b rl).
Proof.
  destruct b as [x y]. unfold training_pass.
  repeat (first
    [ apply uniform_bind; [|intros ?]
    | apply uniform_call
    | apply uniform_call_on_params
    | apply uniform_emit
    | apply uniform_get_params
    | apply uniform_ret ]).
Qed.

Lemma uniform_for_batches lr pass : forall rl, uniform (for_batches lr pass rl).
Proof.
  induction pass as [|[e|b] rest IH]; intros rl; cbn [for_batches].
  - apply uniform_emit.
  - apply uniform_fail.
  - apply uniform_bind; [apply uniform_emit | intros _].
    apply uniform_bind; [apply uniform_training_pass | intros rl1; apply IH].
Qed.

Lemma uniform_epoch lr : uniform (epoch lr).
Proof.
  unfold epoch. apply uniform_bind; [apply uniform_iter_loader | intros pass].
  apply uniform_bind; [apply uniform_for_batches | intros rl].
  apply uniform_bind.
  - unfold py_div. destruct loader_len; [apply uniform_raise | apply uniform_ret].
  - intros mean. apply uniform_emit.
Qed.

Lemma uniform_for_range n body : uniform body -> uniform (for_range n body).
Proof.
  intros Hb. induction n as [|n IH]; cbn [for_range].
  - apply uniform_ret.
  - apply uniform_bind; [assumption | intros _; assumption].
Qed.

(** X3.  The training cell builds its network anew: its outcome, the events
    it adds, and the parameters and generator it leaves depend on the
    generator it starts from only, not on the parameters of an earlier
    model nor on what was done before. *)
Theorem training_restarts_from_a_fresh_model (w1 w2 : world) :
  rng w1 = rng w2 ->
  fst (training_cell w1) = fst (training_cell w2)
  /\ added w1 (snd (training_cell w1)) = added w2 (snd (training_cell w2))
  /\ params (snd (training_cell w1)) = params (snd (training_cell w2))
  /\ rng (snd (training_cell w1)) = rng (snd (training_cell w2)).
Proof.
  intros Hr. unfold training_cell, bind, new_model. rewrite <- Hr.
  destruct (sequential_init (rng w1)) as [p r1].
  set (w0 := {| rng := r1; params := p; calls := [] |}).
  change (set_params p (set_rng r1 w1)) with (with_calls (calls w1) w0).
  change (set_params p (set_rng r1 w2)) with (with_calls (calls w2) w0).
  destruct (for_range epochs (epoch learning_rate) w0) as [r w'] eqn:E.
  destruct (uniform_for_range _ _ (uniform_epoch learning_rate) _ _ _ E)
    as (new & _ & Hl).
  rewrite !Hl. cbn [fst snd with_calls params rng].
  repeat split.
  unfold added. cbn [calls with_calls].
  now rewrite !skipn_app, !Nat.sub_diag, !skipn_all.
Qed.

(** *** The parameters a run leaves *)

Ltac run_calls :=
  repeat (match goal with
          | |- context [match ?r with inl _ => _ | inr _ => _ end] =>
              destruct r eqn:?
          end; cbn -[app]; try discriminate).

Lemma train_on_app lr bs1 : forall p bs2,
  train_on lr p (bs1 ++ bs2)
  = match train_on lr p bs1 with
    | None => None
    | Some p' => train_on lr p' bs2
    end.
Proof.
  induction bs1 as [|b bs1 IH]; intros p bs2; cbn; [reflexivity|].
  destruct (pass_update lr p b); [apply IH | reflexivity].
Qed.

Lemma training_pass_params lr b rl w rl' w' :
  training_pass lr b rl w = (inr rl', w') ->
  pass_update lr (params w) b = Some (params w') /\ rng w' = rng w.
Proof.
  destruct b as [x y].
  unfold training_pass, pass_update, bind, call, call_on_params, get_params,
    ret, emit, fail.
  cbn -[app]. run_calls.
  intros H. injection H as <- <-. split; reflexivity.
Qed.

Lemma for_batches_params lr pass : forall rl w rl' w',
  for_batches lr pass rl w = (inr rl', w') ->
  exists bs,
    pass = map inr bs
    /\ train_on lr (params w) bs = Some (params w')
    /\ rng w' = rng w.
Proof.
  induction pass as [|[e|b] rest IH]; intros rl w rl' w' H.
  - cbn in H. injection H as <- <-. exists []. repeat split.
  - cbn in H. discriminate.
  - cbn -[training_pass] in H. unfold bind in H.
    destruct (training_pass lr b rl (log (Next b) w)) as [[e|rl1] w1] eqn:Hp;
      [discriminate|].
    apply training_pass_params in Hp. destruct Hp as (Hu & Hr).
    apply IH in H. destruct H as (bs & -> & Ht & Hr').
    exists (b :: bs). cbn [params log rng] in *. repeat split.
    + cbn. now rewrite Hu.
    + now rewrite Hr'.
Qed.

Lemma epoch_params lr w w' :
  epoch lr w = (inr tt, w') ->
  exists bs,
    fst (loader_iter (rng w)) = map inr bs
    /\ train_on lr (params w) bs = Some (params w')
    /\ rng w' = snd (loader_iter (rng w)).
Proof.
  unfold epoch, bind, iter_loader.
  destruct (loader_iter (rng w)) as [pass r] eqn:Hl.
  destruct (for_batches lr pass float_zero (set_rng r w)) as [[e|rl] w1] eqn:Hb;
    [discriminate|].
  apply for_batches_params in Hb. destruct Hb as (bs & -> & Ht & Hr).
  unfold py_div. destruct loader_len; [discriminate|].
  cbn. intros H. injection H as <-. exists bs. cbn in *. repeat split; assumption.
Qed.

Lemma for_range_params lr n : forall w w',
  for_range n (epoch lr) w = (inr tt, w') ->
  exists bss,
    passes n (rng w) = map (map inr) bss
    /\ train_on lr (params w) (List.concat bss) = Some (params w')
    /\ rng w' = after_passes n (rng w).
Proof.
  induction n as [|n IH]; intros w w' H.
  - cbn in H. injection H as <-. exists []. repeat split.
  - cbn [for_range] in H. unfold bind in H.
    destruct (epoch lr w) as [[e|[]] w1] eqn:He; [discriminate|].
    apply epoch_params in He. destruct He as (bs & Hl & Ht & Hr).
    apply IH in H. destruct H as (bss & Hp & Ht' & Hr').
    exists (bs :: bss). cbn [passes after_passes List.concat map].
    destruct (loader_iter (rng w)) as [pass r]. cbn [fst snd] in *.
    subst pass. rewrite Hr in Hp, Hr'. repeat split.
    + now rewrite Hp.
    + now rewrite train_on_app, Ht.
    + assumption.
Qed.

(** X4.  When the training cell returns, the parameters it leaves are those
    of the fresh network after the iterations on all batches of the five
    passes, one after the other in the order the loader yielded them: the
    network is not reset between epochs, and neither the running loss nor
    the printing bears on it.  The generator was used for the fresh network
    and for the five passes, and for nothing else. *)
Theorem parameters_are_folded_over_the_batches (w w' : world) :
  training_cell w = (inr tt, w') ->
  exists bss : list (list batch),
    passes epochs (snd (sequential_init (rng w))) = map (map inr) bss
    /\ train_on learning_rate (fst (sequential_init (rng w))) (List.concat bss)
       = Some (params w')
    /\ rng w' = after_passes epochs (snd (sequential_init (rng w))).
Proof.
  unfold training_cell, bind, new_model.
  destruct (sequential_init (rng w)) as [p r1]. intros H.
  apply for_range_params in H. exact H.
Qed.

(** *** Runs in which no call raises *)

Lemma training_pass_total lr b rl w p' :
  pass_update lr (params w) b = Some p' ->
  exists rl' w',
    training_pass lr b rl w = (inr rl', w') /\ params w' = p' /\ rng w' = rng w.
Proof.
  destruct b as [x y].
  unfold training_pass, pass_update, bind, call, call_on_params, get_params,
    ret, emit, fail.
  cbn -[app]. run_calls.
  intros H. injection H as <-. eexists. eexists. repeat split.
Qed.

Lemma for_batches_total lr bs : forall rl w p',
  train_on lr (params w) bs = Some p' ->
  exists rl' w',
    for_batches lr (map inr bs) rl w = (inr rl', w')
    /\ params w' = p' /\ rng w' = rng w.
Proof.
  induction bs as [|b bs IH]; intros rl w p' H.
  - cbn in H. injection H as <-. eexists. eexists. repeat split.
  - cbn [train_on] in H.
    destruct (pass_update lr (params w) b) as [p1|] eqn:Hu; [|discriminate].
    destruct (training_pass_total lr b rl (log (Next b) w) p1 Hu)
      as (rl1 & w1 & Hp & Hp1 & Hr1).
    rewrite <- Hp1 in H. destruct (IH rl1 w1 p' H) as (rl' & w' & Hf & Hp' & Hr').
    exists rl', w'. cbn [map for_batches]. unfold bind, emit at 1.
    rewrite Hp, Hf. repeat split; [assumption|]. now rewrite Hr', Hr1.
Qed.

Lemma epoch_total lr w bs p' :
  loader_len <> O ->
  fst (loader_iter (rng w)) = map inr bs ->
  train_on lr (params w) bs = Some p' ->
  exists w',
    epoch lr w = (inr tt, w')
    /\ params w' = p' /\ rng w' = snd (loader_iter (rng w)).
Proof.
  intros Hn Hl Ht. unfold epoch, bind, iter_loader.
  destruct (loader_iter (rng w)) as [pass r]. cbn [fst snd] in *. subst pass.
  destruct (for_batches_total lr bs float_zero (set_rng r w) p' Ht)
    as (rl & w1 & Hf & Hp & Hr).
  cbv beta iota. unfold batch in *. rewrite Hf. unfold py_div. destruct loader_len; [congruence|].
  cbn. eexists. repeat split; assumption.
Qed.

Lemma for_range_total lr n : forall w bss p',
  loader_len <> O ->
  passes n (rng w) = map (map inr) bss ->
  train_on lr (params w) (List.concat bss) = Some p' ->
  exists w',
    for_range n (epoch lr) w = (inr tt, w')
    /\ params w' = p' /\ rng w' = after_passes n (rng w).
Proof.
  induction n as [|n IH]; intros w bss p' Hn Hp Ht.
  - destruct bss; [|discriminate]. cbn in Ht. injection Ht as <-.
    exists w. repeat split.
  - cbn [passes] in Hp. destruct (loader_iter (rng w)) as [pass r] eqn:El.
    destruct bss as [|bs bss]; [discriminate|].
    cbn [map] in Hp. injection Hp as Hpass Hrest.
    cbn [List.concat] in Ht. rewrite train_on_app in Ht.
    destruct (train_on lr (params w) bs) as [p1|] eqn:Ht1; [|discriminate].
    destruct (epoch_total lr w bs p1 Hn) as (w1 & He & Hp1 & Hr1).
    { now rewrite El. }
    { exact Ht1. }
    rewrite El in Hr1. cbn [snd] in Hr1.
    rewrite <- Hr1 in Hrest. rewrite <- Hp1 in Ht.
    destruct (IH w1 bss p' Hn Hrest Ht) as (w' & Hf & Hp' & Hr').
    exists w'. cbn [for_range after_passes]. unfold bind. rewrite He, El.
    cbn [snd]. rewrite <- Hr1. repeat split; assumption.
Qed.

(** X5.  The training cell returns whenever the loader has a length other
    than zero, every pass yields batches only, and no call of the
    iterations on these batches raises: nothing else can stop it. *)
Theorem training_returns_when_no_call_raises
    (w : world) (bss : list (list batch)) :
  loader_len <> O ->
  passes epochs (snd (sequential_init (rng w))) = map (map inr) bss ->
  train_on learning_rate (fst (sequential_init (rng w))) (List.concat bss)
    <> None ->
  exists w', training_cell w = (inr tt, w').
Proof.
  intros Hn Hp Ht. unfold training_cell, bind, new_model.
  destruct (sequential_init (rng w)) as [p r1]. cbn [fst snd] in *.
  destruct (train_on learning_rate p (List.concat bss)) as [p'|] eqn:E;
    [|congruence].
  destruct (for_range_total learning_rate epochs
              (set_params p (set_rng r1 w)) bss p' Hn Hp E) as (w' & Hf & _).
  now exists w'.
Qed.

(** *** A batch that cannot be fetched *)

Lemma for_batches_fetch_fails lr bs e rest : forall rl w p',
  train_on lr (params w) bs = Some p' ->
  exists w',
    for_batches lr (map inr bs ++ inl e :: rest) rl w
    = (inl (LibraryError e), w')
    /\ params w' = p'.
Proof.
  induction bs as [|b bs IH]; intros rl w p' H.
  - cbn in H. injection H as <-. cbn. eexists. split; reflexivity.
  - cbn [train_on] in H.
    destruct (pass_update lr (params w) b) as [p1|] eqn:Hu; [|discriminate].
    destruct (training_pass_total lr b rl (log (Next b) w) p1 Hu)
      as (rl1 & w1 & Hp & Hp1 & Hr1).
    rewrite <- Hp1 in H. destruct (IH rl1 w1 p' H) as (w' & Hf & Hp').
    exists w'. cbn [map app for_batches]. unfold bind, emit at 1.
    unfold batch in *. rewrite Hp, Hf. split; [reflexivity | assumption].
Qed.

Lemma for_range_split (body : M unit) k : forall n w w1,
  for_range k body w = (inr tt, w1) ->
  for_range (k + n) body w = for_range n body w1.
Proof.
  induction k as [|k IH]; intros n w w1 H.
  - cbn in H. injection H as <-. reflexivity.
  - cbn [for_range Nat.add] in *. unfold bind in *.
    destruct (body w) as [[e|[]] w0]; [discriminate|]. now apply IH.
Qed.

(** X14.  When, after [k] full passes, the loader raises while a batch is
    fetched, the training cell ends with that exception, and the parameters
    are those reached by the iterations on all batches before it: the
    batches of the [k] passes and those of the failing pass that came
    first.  Nothing is undone and nothing is retried. *)
Theorem loader_failure_keeps_earlier_updates
    (w : world) (k m : nat) (bss : list (list batch)) (bs : list batch)
    (e : LibExn) (rest : list (LibExn + batch)) (p' : Params) :
  k + S m = epochs ->
  loader_len <> O ->
  passes k (snd (sequential_init (rng w))) = map (map inr) bss ->
  fst (loader_iter (after_passes k (snd (sequential_init (rng w)))))
  = map inr bs ++ inl e :: rest ->
  train_on learning_rate (fst (sequential_init (rng w)))
    (List.concat bss ++ bs) = Some p' ->
  exists w',
    training_cell w = (inl (LibraryError e), w') /\ params w' = p'.
Proof.
  intros Hk Hn Hp Hfail Ht. unfold training_cell, bind, new_model.
  destruct (sequential_init (rng w)) as [p r1]. cbn [fst snd] in *.
  rewrite train_on_app in Ht.
  destruct (train_on learning_rate p (List.concat bss)) as [p1|] eqn:E;
    [|discriminate].
  destruct (for_range_total learning_rate k
              (set_params p (set_rng r1 w)) bss p1 Hn Hp E)
    as (w1 & Hf & Hp1 & Hr1).
  cbn [rng set_params set_rng] in Hr1.
  rewrite <- Hk, (for_range_split _ k (S m) _ w1 Hf).
  cbn [for_range]. unfold bind, epoch at 1, bind, iter_loader.
  rewrite Hr1. destruct (loader_iter (after_passes k r1)) as [pass r2].
  cbn [fst] in Hfail. subst pass. rewrite <- Hp1 in Ht.
  destruct (for_batches_fetch_fails learning_rate bs e rest float_zero
              (set_rng r2 w1) p' Ht) as (w' & Hb & Hp').
  unfold batch in *. rewrite Hb. now exists w'.
Qed.

End Library.

End MoreRuns.
(* ================================================================== *)
(** ** Properties of the losses, the gradients and the means *)
(* ================================================================== *)

Module MoreArithmetic.

Import Numerics Arithmetic Calculus.
Local Open Scope R_scope.

(** *** Cross entropy *)

Lemma nth_log_softmax x c :
  (c < List.length x)%nat ->
  nth c (log_softmax x) 0 = ln (exp (nth c x 0) / sum (map exp x)).
Proof.
  intros Hc. unfold log_softmax.
  rewrite (nth_indep _ 0 (ln (exp 0 / sum (map exp x))))
    by now rewrite length_map.
  exact (map_nth (fun xi => ln (exp xi / sum (map exp x))) x 0 c).
Qed.

Lemma cross_entropy_row_is_nll x c :
  (c < List.length x)%nat ->
  cross_entropy_row x c = nll_row (log_softmax x) c.
Proof.
  intros Hc. unfold cross_entropy_row, nll_row.
  rewrite nth_log_softmax by assumption.
  assert (Hx : x <> []) by (destruct x; cbn in Hc; [lia | discriminate]).
  pose proof (sum_exp_pos x Hx) as Hs.
  unfold Rdiv. rewrite ln_mult.
  - rewrite ln_exp, ln_Rinv by assumption. ring.
  - apply exp_pos.
  - now apply Rinv_0_lt_compat.
Qed.

Lemma cross_entropy_rows_are_nll n logits : forall labels,
  Forall (fun x => List.length x = n) logits ->
  Forall (fun c => (c < n)%nat) labels ->
  map2 cross_entropy_row logits labels
  = map2 nll_row (map log_softmax logits) labels.
Proof.
  induction logits as [|x logits IH]; intros [|c labels] Hx Hc; cbn;
    try reflexivity.
  inversion Hx; subst. inversion Hc; subst.
  rewrite cross_entropy_row_is_nll by assumption.
  f_equal. now apply IH.
Qed.

Lemma model_is_log_softmax_of_logits W1 b1 W2 b2 W3 b3 images :
  sequential (model W1 b1 W2 b2 W3 b3) images
  = map log_softmax (sequential (logit_model W1 b1 W2 b2 W3 b3) images).
Proof. rewrite !sequential_rows, map_map. reflexivity. Qed.

Lemma logits_have_ten_entries W1 b1 W2 b2 W3 b3 images :
  List.length W3 = 10%nat -> List.length b3 = 10%nat ->
  Forall (fun x => List.length x = 10%nat)
    (sequential (logit_model W1 b1 W2 b2 W3 b3) images).
Proof.
  intros HW Hb. rewrite sequential_rows. apply Forall_forall.
  intros row Hrow. apply in_map_iff in Hrow. destruct Hrow as (x & <- & _).
  cbn [logit_model fold_left apply_row].
  rewrite map2_length, HW, Hb. reflexivity.
Qed.

(** X6.  For the same weights and the same batch, with labels among the ten
    classes, the loss of In [2] (raw scores into [nn.CrossEntropyLoss]) is
    the loss of In [3] (the same network ending in [nn.LogSoftmax(dim=1)],
    into [nn.NLLLoss]). *)
Theorem cross_entropy_is_nll_of_log_softmax
    (W1 : list (list R)) (b1 : list R) (W2 : list (list R)) (b2 : list R)
    (W3 : list (list R)) (b3 : list R)
    (images : list (list R)) (labels : list nat) :
  List.length W3 = 10%nat ->
  List.length b3 = 10%nat ->
  Forall (fun c => (c < 10)%nat) labels ->
  cross_entropy_loss (sequential (logit_model W1 b1 W2 b2 W3 b3) images) labels
  = nll_loss (sequential (model W1 b1 W2 b2 W3 b3) images) labels.
Proof.
  intros HW Hb Hl. unfold cross_entropy_loss, nll_loss.
  rewrite model_is_log_softmax_of_logits.
  rewrite (cross_entropy_rows_are_nll 10); try assumption.
  - reflexivity.
  - now apply logits_have_ten_entries.
Qed.

(** *** Signs *)

Lemma exp_le_sum_exp x xi : In xi x -> exp xi <= sum (map exp x).
Proof.
  induction x as [|a x IH]; [intros []|].
  cbn [map]. rewrite sum_cons. intros [-> | Hin].
  - pose proof (sum_exp_nonneg x). lra.
  - pose proof (exp_pos a). specialize (IH Hin). lra.
Qed.

Lemma ln_nonpos y : 0 < y -> y <= 1 -> ln y <= 0.
Proof.
  intros H0 [Hlt | ->]; [|rewrite ln_1; lra].
  pose proof (ln_increasing y 1 H0 Hlt) as H. rewrite ln_1 in H. lra.
Qed.

Lemma log_softmax_nonpos x : Forall (fun v => v <= 0) (log_softmax x).
Proof.
  apply Forall_forall. intros v Hv. unfold log_softmax in Hv.
  apply in_map_iff in Hv. destruct Hv as (xi & <- & Hin).
  assert (Hx : x <> []) by (intros ->; destruct Hin).
  pose proof (sum_exp_pos x Hx) as Hs. pose proof (exp_pos xi) as He.
  pose proof (exp_le_sum_exp x xi Hin) as Hle.
  apply ln_nonpos.
  - now apply Rdiv_lt_0_compat.
  - apply Rmult_le_reg_r with (r := sum (map exp x)); [assumption|].
    unfold Rdiv. rewrite Rmult_assoc, Rinv_l by lra. lra.
Qed.

Lemma nth_nonpos (l : list R) c : Forall (fun v => v <= 0) l -> nth c l 0 <= 0.
Proof.
  intros H. destruct (Nat.lt_ge_cases c (List.length l)) as [Hc|Hc].
  - rewrite Forall_forall in H. apply H. now apply nth_In.
  - rewrite nth_overflow by assumption. lra.
Qed.

Lemma sum_nonneg l : Forall (fun v => 0 <= v) l -> 0 <= sum l.
Proof.
  induction 1 as [|a l Ha _ IH]; [cbn; lra|]. rewrite sum_cons. lra.
Qed.

Lemma mean_nonneg l : Forall (fun v => 0 <= v) l -> 0 <= mean l.
Proof.
  intros H. unfold mean. destruct l as [|a l].
  - cbn. unfold Rdiv. rewrite Rmult_0_l. lra.
  - apply Rmult_le_pos; [now apply sum_nonneg|].
    apply Rlt_le, Rinv_0_lt_compat, lt_0_INR. cbn. lia.
Qed.

Lemma nll_rows_nonneg logps : forall labels,
  Forall (Forall (fun v => v <= 0)) logps ->
  Forall (fun v => 0 <= v) (map2 nll_row logps labels).
Proof.
  induction logps as [|lp logps IH]; intros [|c labels] H; cbn;
    try constructor.
  - inversion H; subst. unfold nll_row.
    pose proof (nth_nonpos lp c H2). lra.
  - inversion H; subst. now apply IH.
Qed.

(** X7.  Whatever the weights and the batch, every entry the trained
    network outputs is a log-probability, at most zero, and the loss
    [nn.NLLLoss] makes of this output is never negative. *)
Theorem log_probabilities_and_loss_signs
    (W1 : list (list R)) (b1 : list R) (W2 : list (list R)) (b2 : list R)
    (W3 : list (list R)) (b3 : list R)
    (images : list (list R)) (labels : list nat) :
  Forall (Forall (fun v => v <= 0))
    (sequential (model W1 b1 W2 b2 W3 b3) images)
  /\ 0 <= nll_loss (sequential (model W1 b1 W2 b2 W3 b3) images) labels.
Proof.
  assert (H : Forall (Forall (fun v => v <= 0))
                (sequential (model W1 b1 W2 b2 W3 b3) images)).
  { rewrite model_is_log_softmax_of_logits. apply Forall_forall.
    intros row Hrow. apply in_map_iff in Hrow.
    destruct Hrow as (x & <- & _). apply log_softmax_nonpos. }
  split; [exact H|]. unfold nll_loss. now apply mean_nonneg, nll_rows_nonneg.
Qed.

(** *** Accumulated gradients *)

Lemma zeros_plus (g0 : tensor) : forall g : tensor,
  List.length g0 = List.length g ->
  map2 Rplus (map (fun _ => 0) g0) g = g.
Proof.
  induction g0 as [|a g0 IH]; intros [|b g] H; cbn in *; try lia;
    [reflexivity|].
  rewrite Rplus_0_l. f_equal. apply IH. lia.
Qed.

Lemma grad_after_zeroing g p :
  match grad p with
  | Some g0 => List.length g0 = List.length g
  | None => True
  end ->
  grad (accumulate g (zero_grad p)) = Some g.
Proof.
  unfold accumulate, zero_grad. cbn [grad data].
  destruct (grad p) as [g0|]; cbn [option_map]; intros H; [|reflexivity].
  now rewrite zeros_plus.
Qed.

Lemma step_zeroing_spec lr g p :
  match grad p with
  | Some g0 => List.length g0 = List.length g
  | None => True
  end ->
  step_zeroing lr g p
  = {| data := map2 (sgd_entry lr) (data p) g; grad := Some g |}.
Proof.
  intros H. unfold step_zeroing, sgd_parameter.
  rewrite (grad_after_zeroing g p H). reflexivity.
Qed.

Lemma sgd_entries_length lr (w g : tensor) :
  List.length g = List.length w ->
  List.length (map2 (sgd_entry lr) w g) = List.length w.
Proof. intros H. rewrite map2_length, H. apply Nat.min_id. Qed.

(** X8.  Two training steps in a row, on losses with gradients [g1] and
    [g2].  As the notebook writes a step, with [optimizer.zero_grad()]
    first, each step moves an entry by the learning rate times its own
    gradient, whatever gradient was stored before, and leaves that gradient
    stored.  Without the call, on a fresh parameter, the second step moves
    by the sum of both gradients. *)
Theorem zero_grad_keeps_steps_apart
    (lr : R) (p : parameter) (g1 g2 : tensor) (i : nat) :
  List.length g1 = List.length (data p) ->
  List.length g2 = List.length (data p) ->
  match grad p with
  | Some g0 => List.length g0 = List.length (data p)
  | None => True
  end ->
  (i < List.length (data p))%nat ->
  entry (data (step_zeroing lr g2 (step_zeroing lr g1 p))) i
  = entry (data p) i - lr * entry g1 i - lr * entry g2 i
  /\ grad (step_zeroing lr g2 (step_zeroing lr g1 p)) = Some g2
  /\ (grad p = None ->
      entry (data (step_accumulating lr g2 (step_accumulating lr g1 p))) i
      = entry (data p) i - lr * entry g1 i - lr * (entry g1 i + entry g2 i)).
Proof.
  intros H1 H2 H0 Hi.
  assert (E1 : step_zeroing lr g1 p
               = {| data := map2 (sgd_entry lr) (data p) g1; grad := Some g1 |}).
  { apply step_zeroing_spec. destruct (grad p); [congruence | exact I]. }
  assert (L1 : List.length (map2 (sgd_entry lr) (data p) g1)
               = List.length (data p)) by now apply sgd_entries_length.
  assert (E2 : step_zeroing lr g2 (step_zeroing lr g1 p)
               = {| data := map2 (sgd_entry lr)
                              (map2 (sgd_entry lr) (data p) g1) g2;
                    grad := Some g2 |}).
  { rewrite E1. rewrite step_zeroing_spec; [reflexivity|].
    cbn [grad]. congruence. }
  split; [|split].
  - rewrite E2. cbn [data]. unfold entry.
    rewrite (map2_nth _ 0 0) by congruence.
    rewrite (map2_nth _ 0 0) by assumption.
    unfold sgd_entry. ring.
  - now rewrite E2.
  - intros Hnone. unfold step_accumulating, sgd_parameter, accumulate.
    rewrite Hnone. cbn [grad data]. unfold entry.
    rewrite (map2_nth _ 0 0);
      [|congruence | rewrite map2_length, H1, H2, Nat.min_id; congruence].
    rewrite (map2_nth _ 0 0) by assumption.
    rewrite (map2_nth _ 0 0) by congruence.
    unfold sgd_entry. ring.
Qed.

(** *** The gradient of the mean of squares *)

Lemma sum_app l1 l2 : sum (l1 ++ l2) = sum l1 + sum l2.
Proof.
  induction l1 as [|a l1 IH]; cbn [app]; [cbn; ring|].
  rewrite !sum_cons, IH. ring.
Qed.

Lemma replace_length i t : forall x, List.length (replace i t x) = List.length x.
Proof.
  induction i as [|i IH]; intros [|a x]; cbn; try reflexivity.
  now rewrite IH.
Qed.

Lemma sum_square_replace t : forall x i,
  (i < List.length x)%nat ->
  sum (square (replace i t x))
  = t * t + (sum (square x) - entry x i * entry x i).
Proof.
  induction x as [|a x IH]; intros i Hi; [cbn in Hi; lia|].
  destruct i as [|i].
  - cbn [replace square map]. rewrite !sum_cons. unfold entry. cbn [nth]. ring.
  - cbn [replace square map]. rewrite !sum_cons.
    fold (square (replace i t x)). fold (square x).
    rewrite IH by (cbn in Hi; lia). unfold entry. cbn [nth]. ring.
Qed.

Lemma z_of_replace t x i :
  (i < List.length x)%nat ->
  z_of (replace i t x)
  = (t * t + (sum (square x) - entry x i * entry x i)) / INR (List.length x).
Proof.
  intros Hi. unfold z_of, mean.
  rewrite sum_square_replace by assumption.
  unfold square. now rewrite length_map, replace_length.
Qed.

(** X9.  For [y = x**2] and [z = y.mean()], the derivative of [z] in any
    entry of [x] is twice the entry over the number of entries; for the
    four entries of the notebook's [x] this is the entry of [x/2], what the
    notebook prints next to [x.grad]. *)
Theorem gradient_of_mean_of_squares (x : tensor) (i : nat) :
  (i < List.length x)%nat ->
  derivable_pt_lim (fun t => z_of (replace i t x)) (entry x i)
    (2 * entry x i / INR (List.length x))
  /\ (List.length x = 4%nat ->
      2 * entry x i / INR (List.length x) = entry (half x) i).
Proof.
  intros Hi.
  assert (Hn : 1 <= INR (List.length x)).
  { change 1 with (INR 1). apply le_INR. lia. }
  split.
  - intros eps Heps. exists (mkposreal eps Heps). intros h Hh Hd.
    cbn [pos] in Hd. rewrite !z_of_replace by assumption.
    replace ((((entry x i + h) * (entry x i + h)
               + (sum (square x) - entry x i * entry x i))
              / INR (List.length x)
              - (entry x i * entry x i
                 + (sum (square x) - entry x i * entry x i))
                / INR (List.length x)) / h
             - 2 * entry x i / INR (List.length x))
      with (h * / INR (List.length x)) by (field; split; lra).
    rewrite Rabs_mult.
    rewrite (Rabs_pos_eq (/ INR (List.length x)))
      by (apply Rlt_le, Rinv_0_lt_compat; lra).
    apply Rle_lt_trans with (r2 := Rabs h * 1); [|lra].
    apply Rmult_le_compat_l; [apply Rabs_pos|].
    rewrite <- Rinv_1. apply Rinv_le_contravar; lra.
  - intros H4. rewrite H4. unfold half, entry.
    rewrite (nth_indep (map (fun v => v / 2) x) 0 (0 / 2))
      by (rewrite length_map; lia).
    rewrite (map_nth (fun v => v / 2) x 0 i). cbn [INR]. field.
Qed.

(** *** The mean over batches *)

Lemma sum_batch_means n batches :
  Forall (fun b : list R => List.length b = n) batches ->
  sum (map mean batches) = sum (List.concat batches) / INR n.
Proof.
  induction 1 as [|b batches Hb _ IH]; [cbn; unfold Rdiv; ring|].
  cbn [map List.concat]. rewrite sum_cons, sum_app, IH.
  unfold mean. rewrite Hb. unfold Rdiv. ring.
Qed.

Lemma concat_length_equal n (batches : list (list R)) :
  Forall (fun b : list R => List.length b = n) batches ->
  List.length (List.concat batches) = (List.length batches * n)%nat.
Proof.
  induction 1 as [|b batches Hb _ IH]; [reflexivity|].
  cbn [List.concat List.length]. rewrite length_app, IH, Hb. lia.
Qed.

(** X10.  The number the training cell prints for an epoch, the mean over
    the batches of the per-batch mean losses, is the mean loss over all
    examples of the epoch when all batches have the same size; with a
    shorter last batch the two can differ. *)
Theorem mean_over_equal_batches_is_mean_over_examples
    (n : nat) (batches : list (list R)) :
  n <> O ->
  Forall (fun b : list R => List.length b = n) batches ->
  epoch_mean batches = example_mean batches
  /\ epoch_mean [[0; 0]; [3]] <> example_mean [[0; 0]; [3]].
Proof.
  intros Hn Hb. split.
  - unfold epoch_mean, example_mean.
    destruct batches as [|b batches]; [reflexivity|].
    unfold mean at 1 3. rewrite (sum_batch_means n) by assumption.
    rewrite length_map, (concat_length_equal n) by assumption.
    rewrite mult_INR.
    assert (0 < INR n) by (apply lt_0_INR; lia).
    assert (0 < INR (List.length (b :: batches)))
      by (apply lt_0_INR; cbn; lia).
    field. split; lra.
  - unfold epoch_mean, example_mean, mean. cbn. lra.
Qed.

End MoreArithmetic.
(* ================================================================== *)
(** ** More on the document and its recorded run *)
(* ================================================================== *)

Module MoreRecorded.

Import Text Notebook Document.
Local Open Scope nat_scope.
Local Open Scope string_scope.

(** X11.  The execution counts of the code cells increase strictly along
    the document, from 1 for the first code cell to 18 for the last: no
    cell carries a count lower than a cell above it.  Of the counts from 1
    to 18, only 8 and 17 are carried by no cell. *)
Theorem cells_ran_in_document_order :
  exists counts : list nat,
    execution_counts = map Some counts
    /\ chain lt counts
    /\ hd 0 counts = 1
    /\ last counts 0 = 18
    /\ missing 18 counts = [8; 17].
Proof.
  exists [1; 2; 3; 4; 5; 6; 7; 9; 10; 11; 12; 13; 14; 15; 16; 18].
  split; [vm_compute; reflexivity|].
  split; [cbn; lia|].
  repeat split; vm_compute; reflexivity.
Qed.

(** X12.  The four cells that define a network list the same layers,
    [Linear(784, 128)], [Linear(128, 64)], [Linear(64, 10)], each taking
    what the one before gives; a network that ends in [LogSoftmax] is used
    with [NLLLoss] and the one that does not with [CrossEntropyLoss]; and
    every explicit shape passed to [view] or [resize_] has 784 entries per
    image, the input size of the first layer. *)
Theorem networks_agree_and_compose :
  Forall (fun c =>
            cell_linears c = [(784, 128); (128, 64); (64, 10)]
            /\ criteria_of c
               = [if ends_in_log_softmax c then "NLLLoss"
                  else "CrossEntropyLoss"])
    model_cells
  /\ List.length model_cells = 4
  /\ map ends_in_log_softmax model_cells = [false; true; true; true]
  /\ composable [(784, 128); (128, 64); (64, 10)]
  /\ explicit_shapes = [[64; 784]; [1; 784]; [1; 28; 28]]
  /\ map (fun s => numel s / hd 1 s) explicit_shapes = [784; 784; 784].
Proof.
  split.
  - unfold model_cells. vm_compute filter.
    repeat (constructor; [split; vm_compute; reflexivity|]). constructor.
  - repeat split; vm_compute; reflexivity.
Qed.

(** X13.  In the recorded run of the autograd demonstration, no gradient
    is printed before the backward pass; after it the printed [x.grad] is,
    entry by entry, the printed [x/2]; and the printed numbers agree, within
    the four decimals shown, with [x/2] being half of [x], [y] its square
    and [z] the mean of [y]. *)
Theorem recorded_gradient_is_half_of_x :
  stream_text cell_In9 = ["None None None"]
  /\ List.length x_grad_printed = 2
  /\ forallb2 same_row x_grad_printed x_half_printed = true
  /\ forallb2 (within (3 # 40000) (fun q => q / 2)%Q)
       (numbers x_printed) (numbers x_half_printed) = true
  /\ forallb2 (within (1 # 4000) (fun q => q * q)%Q)
       (numbers x_printed) (numbers y_printed) = true
  /\ forallb2 (within (1 # 10000) (fun q => q))
       [mean_Q (numbers y_printed)] z_printed = true.
Proof. repeat split; vm_compute; reflexivity. Qed.

End MoreRecorded.

Module Witnesses.

Import Training Updates Runs.

Lemma training_steps_in_order_witness :
  @training_cell Toy.good Toy.good_start = (inr tt, Toy.good_end)
  /\ exists eps,
       @added Toy.good Toy.good_start Toy.good_end
       = flat_map (@epoch_calls Toy.good) eps
       /\ filter (@is_training_step Toy.good)
            (@added Toy.good Toy.good_start Toy.good_end)
          = flat_map (@training_steps Toy.good) (map fst (List.concat eps)).
Proof.
  assert (H : @training_cell Toy.good Toy.good_start = (inr tt, Toy.good_end))
    by (vm_compute; reflexivity).
  split; [exact H|].
  destruct (@training_steps_in_order Toy.good _ _ H)
    as (eps & _ & _ & Ha & _ & Hf & _).
  exists eps. split; assumption.
Defined.

(** On the small library the first iteration calls the flattening [view]
    and [loss.item()] besides the five steps, and the text of the cell
    holds an [else] and three lines on [running_loss]. *)
Lemma iteration_calls_beyond_the_named_steps :
  @training_cell Toy.good Toy.good_start = (inr tt, Toy.good_end)
  /\ ~ @only_named_steps Toy.good
         (@added Toy.good Toy.good_start Toy.good_end)
  /\ Notebook.uses_word (Notebook.source Notebook.training_cell) "else" = true
  /\ Notebook.occurrences "running_loss"
       (Notebook.source Notebook.training_cell) = 3%nat.
Proof.
  split; [vm_compute; reflexivity|].
  split; [|split; vm_compute; reflexivity].
  intros H.
  specialize (H (@View Toy.good 1%Z)).
  assert (Hin : In (@View Toy.good 1%Z)
                  (@added Toy.good Toy.good_start Toy.good_end)).
  { vm_compute. right. left. reflexivity. }
  specialize (H Hin eq_refl). discriminate H.
Qed.


Lemma five_epochs_of_full_passes_witness :
  @training_cell Toy.good Toy.good_start = (inr tt, Toy.good_end)
  /\ List.length (@printed Toy.good (@added Toy.good Toy.good_start Toy.good_end))
     = 5%nat.
Proof.
  assert (H : @training_cell Toy.good Toy.good_start = (inr tt, Toy.good_end))
    by (vm_compute; reflexivity).
  split; [exact H|].
  destruct (@five_epochs_of_full_passes Toy.good _ _ H)
    as (eps & _ & _ & _ & _ & Hn & _).
  exact Hn.
Defined.

Lemma library_exceptions_propagate_witness :
  @training_cell Toy.bad Toy.bad_start
  = (inl (LibraryError ("size mismatch"%string : @LibExn Toy.bad)), Toy.bad_end)
  /\ exists c pre,
       @added Toy.bad Toy.bad_start Toy.bad_end
       = pre ++ [Raised c ("size mismatch"%string : @LibExn Toy.bad)]
       /\ @quiet Toy.bad pre.
Proof.
  assert (H : @training_cell Toy.bad Toy.bad_start
              = (inl (LibraryError ("size mismatch"%string : @LibExn Toy.bad)),
                 Toy.bad_end))
    by (vm_compute; reflexivity).
  split; [exact H|].
  destruct (@library_exceptions_propagate Toy.bad _ _ _ H) as (_ & _ & Hl & _).
  exact (Hl _ eq_refl).
Defined.

Lemma printed_loss_is_mean_over_batches_witness :
  @training_cell Toy.good Toy.good_start = (inr tt, Toy.good_end)
  /\ exists eps : list (list (@batch Toy.good * @Float Toy.good)),
       @printed Toy.good (@added Toy.good Toy.good_start Toy.good_end)
       = map (fun its =>
                ("Training loss: "
                 ++ Toy.show (fold_left Z.add (map snd its) 0 / 2)%Z)%string)
           eps.
Proof.
  assert (H : @training_cell Toy.good Toy.good_start = (inr tt, Toy.good_end))
    by (vm_compute; reflexivity).
  split; [exact H|].
  destruct (@printed_loss_is_mean_over_batches Toy.good _ _ H)
    as (eps & _ & _ & _ & Hp & _).
  exists eps. exact Hp.
Defined.

Import Numerics Arithmetic.
Local Open Scope R_scope.

Lemma sgd_step_keeps_zero_gradient_entries_witness :
  exists p',
    nth_error (sgd_step demo_lr [ {| data := [2; 3]; grad := Some [0; 1] |} ]) 0
    = Some p'
    /\ entry (data p') 0 = entry [2; 3] 0.
Proof.
  destruct (sgd_step_keeps_zero_gradient_entries
              [ {| data := [2; 3]; grad := Some [0; 1] |} ] 0
              {| data := [2; 3]; grad := Some [0; 1] |} [0; 1] 0
              eq_refl eq_refl eq_refl (Nat.lt_0_succ 1))
    as (p' & Hn & _ & Hz & _).
  exists p'. split; [exact Hn | exact (Hz eq_refl)].
Defined.

Lemma prediction_is_a_distribution_witness :
  Forall (distribution 10)
    (torch_exp
       (sequential
          (model [[1]] [0] [[1]] [0] (repeat [1] 10) (repeat 0 10))
          [[1]; [2]])).
Proof.
  exact (proj1 (proj2 (proj2 (prediction_is_a_distribution
                  [[1]] [0] [[1]] [0] (repeat [1] 10) (repeat 0 10)
                  [[1]; [2]] eq_refl eq_refl)))).
Defined.

End Witnesses.

Module MoreWitnesses.

Import Training Runs Updates MoreRuns.
Local Open Scope nat_scope.

Lemma empty_loader_never_returns_witness :
  @training_cell MoreToy.empty MoreToy.empty_start
  = (inl ZeroDivisionError, snd (@training_cell MoreToy.empty MoreToy.empty_start))
  /\ @added MoreToy.empty MoreToy.empty_start
       (snd (@training_cell MoreToy.empty MoreToy.empty_start))
     = [Exhausted].
Proof.
  assert (H : @training_cell MoreToy.empty MoreToy.empty_start
              = (inl ZeroDivisionError,
                 snd (@training_cell MoreToy.empty MoreToy.empty_start)))
    by (vm_compute; reflexivity).
  split; [exact H|].
  destruct (@empty_loader_never_returns MoreToy.empty _ _ _ eq_refl H)
    as (_ & _ & He).
  exact (proj2 (He eq_refl)).
Defined.

Lemma printed_lines_count_completed_epochs_witness :
  List.length
    (@printed MoreToy.flaky
       (@added MoreToy.flaky MoreToy.flaky_start
          (snd (@training_cell MoreToy.flaky MoreToy.flaky_start)))) < 5.
Proof.
  assert (H : @training_cell MoreToy.flaky MoreToy.flaky_start
              = (inl (LibraryError ("read error"%string : @LibExn MoreToy.flaky)),
                 snd (@training_cell MoreToy.flaky MoreToy.flaky_start)))
    by (vm_compute; reflexivity).
  exact (proj1 (@printed_lines_count_completed_epochs MoreToy.flaky _ _ _ H)).
Defined.

Lemma training_restarts_from_a_fresh_model_witness :
  @params Toy.good (snd (@training_cell Toy.good Toy.good_start))
  = @params Toy.good (snd (@training_cell Toy.good MoreToy.good_later)).
Proof.
  exact (proj1 (proj2 (proj2
    (@training_restarts_from_a_fresh_model Toy.good
       Toy.good_start MoreToy.good_later eq_refl)))).
Defined.

Lemma parameters_are_folded_over_the_batches_witness :
  exists bss : list (list (@batch Toy.good)),
    @train_on Toy.good learning_rate
      (fst (@sequential_init Toy.good (@rng Toy.good Toy.good_start)))
      (List.concat bss)
    = Some (@params Toy.good Toy.good_end).
Proof.
  assert (H : @training_cell Toy.good Toy.good_start = (inr tt, Toy.good_end))
    by (vm_compute; reflexivity).
  destruct (@parameters_are_folded_over_the_batches Toy.good _ _ H)
    as (bss & _ & Ht & _).
  exists bss. exact Ht.
Defined.

Lemma training_returns_when_no_call_raises_witness :
  exists w', @training_cell Toy.good Toy.good_start = (inr tt, w').
Proof.
  apply (@training_returns_when_no_call_raises Toy.good Toy.good_start
           (repeat [(1%Z, 2%Z); (3%Z, 4%Z)] 5)).
  - discriminate.
  - reflexivity.
  - vm_compute. discriminate.
Defined.

Lemma loader_failure_keeps_earlier_updates_witness :
  exists w',
    @training_cell MoreToy.flaky MoreToy.flaky_start
    = (inl (LibraryError ("read error"%string : @LibExn MoreToy.flaky)), w')
    /\ @params MoreToy.flaky w'
       = @params MoreToy.flaky
           (snd (@training_cell MoreToy.flaky MoreToy.flaky_start)).
Proof.
  apply (@loader_failure_keeps_earlier_updates MoreToy.flaky
           MoreToy.flaky_start 2 2
           (repeat [(1%Z, 2%Z); (3%Z, 4%Z)] 2) [(1%Z, 2%Z)]
           ("read error"%string : @LibExn MoreToy.flaky) []).
  - reflexivity.
  - discriminate.
  - reflexivity.
  - reflexivity.
  - vm_compute. reflexivity.
Defined.

Import Numerics Arithmetic Calculus MoreArithmetic.
Local Open Scope R_scope.

Lemma cross_entropy_is_nll_of_log_softmax_witness :
  cross_entropy_loss
    (sequential
       (logit_model [[1]] [0] [[1]] [0] (repeat [1] 10) (repeat 0 10))
       [[1]; [2]])
    [3%nat; 7%nat]
  = nll_loss
      (sequential
         (model [[1]] [0] [[1]] [0] (repeat [1] 10) (repeat 0 10))
         [[1]; [2]])
      [3%nat; 7%nat].
Proof.
  apply cross_entropy_is_nll_of_log_softmax.
  - reflexivity.
  - reflexivity.
  - repeat constructor.
Defined.

Lemma zero_grad_keeps_steps_apart_witness :
  entry
    (data (step_zeroing (1 / 100) [1; 0]
             (step_zeroing (1 / 100) [0; 1]
                {| data := [2; 3]; grad := Some [5; 5] |}))) 0
  = 2 - (1 / 100) * 0 - (1 / 100) * 1.
Proof.
  exact (proj1 (zero_grad_keeps_steps_apart (1 / 100)
                  {| data := [2; 3]; grad := Some [5; 5] |} [0; 1] [1; 0] 0
                  eq_refl eq_refl eq_refl (Nat.lt_0_succ 1))).
Defined.

Lemma gradient_of_mean_of_squares_witness :
  2 * entry [1; 2; 3; 4] 1 / INR 4 = entry (half [1; 2; 3; 4]) 1.
Proof.
  refine (proj2 (gradient_of_mean_of_squares [1; 2; 3; 4] 1 _) eq_refl).
  cbn. lia.
Defined.

Lemma mean_over_equal_batches_is_mean_over_examples_witness :
  epoch_mean [[1; 2]; [3; 4]] = example_mean [[1; 2]; [3; 4]].
Proof.
  refine (proj1 (mean_over_equal_batches_is_mean_over_examples 2
                   [[1; 2]; [3; 4]] _ _)).
  - discriminate.
  - repeat constructor.
Defined.

End MoreWitnesses.
